(** * cli-mcp-client: a shallow embedding of the query orchestrator,
      the connection step, the interactive loop and the entry point.

    Sources embedded here:
    - [handlers.ts]   ([processQuery])
    - [src/client/connection.ts] ([connectToServer])
    - [src/client/chat-loop.ts]  ([chatLoop], [cleanup])
    - [index.ts]      (credential check, [MCPClient], [main])

    The model API, the tool channel, the line reader and the host process
    are external: they are oracles of a [Runtime], each answering from the
    history of events so far, so every theorem quantified over a [Runtime]
    covers every behaviour of these collaborators, failures included.
    Strings are byte strings (UTF-8). *)

From Stdlib Require Import String Ascii List ZArith Bool Lia.
From stdpp Require Import base option list strings gmap.
Import ListNotations.
Local Open Scope string_scope.
Local Open Scope list_scope.

(* ===================================================================== *)
(** ** JavaScript values                                                  *)
(* ===================================================================== *)

(** A JSON-like JavaScript value.  Numbers are kept as their literal: the
    program never computes with them.  An object is the list of its own
    properties in enumeration order. *)
#[warnings="-register-all"]
Inductive JsValue : Type :=
| JUndefined
| JNull
| JBool (b : bool)
| JNum (literal : string)
| JStr (s : string)
| JArr (elems : list JsValue)
| JObj (props : list (string * JsValue)).

Definition JsObject := list (string * JsValue).

(** [o.key]: the first property named [key], [undefined] when absent. *)
Fixpoint prop (key : string) (o : JsObject) : JsValue :=
  match o with
  | [] => JUndefined
  | (k, v) :: rest => if String.eqb k key then v else prop key rest
  end.

(** [key in o] for own properties. *)
Fixpoint has_key (key : string) (o : JsObject) : bool :=
  match o with
  | [] => false
  | (k, _) :: rest => if String.eqb k key then true else has_key key rest
  end.

Definition nl : string := String (ascii_of_nat 10) "".

(** [Array.prototype.join]. *)
Fixpoint join (sep : string) (l : list string) : string :=
  match l with
  | [] => ""
  | [x] => x
  | x :: rest => x +:+ sep +:+ join sep rest
  end.

(** [String(v)], as a template literal or [+] coerces a value. *)
Fixpoint ToString (v : JsValue) : string :=
  match v with
  | JUndefined => "undefined"
  | JNull => "null"
  | JBool true => "true"
  | JBool false => "false"
  | JNum lit => lit
  | JStr s => s
  | JArr l =>
      join "," (List.map (fun x => match x with
                                   | JUndefined | JNull => ""
                                   | _ => ToString x
                                   end) l)
  | JObj _ => "[object Object]"
  end.

(** *** [JSON.stringify] (one argument, no indentation) *)

Definition hex_digit (n : nat) : ascii :=
  match n with
  | 0 => "0" | 1 => "1" | 2 => "2" | 3 => "3" | 4 => "4" | 5 => "5"
  | 6 => "6" | 7 => "7" | 8 => "8" | 9 => "9" | 10 => "a" | 11 => "b"
  | 12 => "c" | 13 => "d" | 14 => "e" | _ => "f"
  end%char.

Definition quote : string := String (ascii_of_nat 34) "".
Definition backslash : string := String (ascii_of_nat 92) "".

Definition json_escape_char (c : ascii) : string :=
  let n := nat_of_ascii c in
  if Nat.eqb n 34 then backslash +:+ quote
  else if Nat.eqb n 92 then backslash +:+ backslash
  else if Nat.eqb n 8 then backslash +:+ "b"
  else if Nat.eqb n 12 then backslash +:+ "f"
  else if Nat.eqb n 10 then backslash +:+ "n"
  else if Nat.eqb n 13 then backslash +:+ "r"
  else if Nat.eqb n 9 then backslash +:+ "t"
  else if Nat.ltb n 32 then
    backslash +:+ "u00" +:+ String (hex_digit (n / 16)) (String (hex_digit (n mod 16)) "")
  else String c "".

Fixpoint json_escape (s : string) : string :=
  match s with
  | EmptyString => ""
  | String c rest => json_escape_char c +:+ json_escape rest
  end.

Definition json_quote (s : string) : string :=
  quote +:+ json_escape s +:+ quote.

(** [None] is JavaScript's [undefined] result. *)
Fixpoint JSON_stringify (v : JsValue) : option string :=
  match v with
  | JUndefined => None
  | JNull => Some "null"
  | JBool true => Some "true"
  | JBool false => Some "false"
  | JNum lit => Some lit
  | JStr s => Some (json_quote s)
  | JArr l =>
      Some ("[" +:+
            join "," (List.map (fun x => match JSON_stringify x with
                                         | Some s => s
                                         | None => "null"
                                         end) l)
            +:+ "]")
  | JObj ps =>
      Some ("{" +:+
            join "," (List.flat_map
                        (fun kv => match JSON_stringify (snd kv) with
                                   | Some s => [json_quote (fst kv) +:+ ":" +:+ s]
                                   | None => []
                                   end) ps)
            +:+ "}")
  end.

(** [`${x}`] for an [x] that is a string or [undefined]. *)
Definition template (o : option string) : string :=
  match o with Some s => s | None => "undefined" end.


(** String helpers of the JavaScript runtime used by the program. *)

(** [s.endsWith(suffix)]. *)
Definition endsWith (s suffix : string) : bool :=
  let n := String.length s in
  let k := String.length suffix in
  Nat.leb k n && String.eqb (substring (n - k) k s) suffix.

Definition lower_ascii (c : ascii) : ascii :=
  let n := nat_of_ascii c in
  if Nat.leb 65 n && Nat.leb n 90 then ascii_of_nat (n + 32) else c.

(** [s.toLowerCase()] on the ASCII letters; other bytes are kept.  (No
    character outside ASCII lower-cases to a string containing only
    letters of [quit], so the comparison in [chatLoop] is not affected.) *)
Fixpoint toLowerCase (s : string) : string :=
  match s with
  | EmptyString => EmptyString
  | String c rest => String (lower_ascii c) (toLowerCase rest)
  end.

(** JavaScript white space and line terminators within ASCII, as
    [String.prototype.trim] removes them. *)
Definition is_space (c : ascii) : bool :=
  let n := nat_of_ascii c in
  Nat.eqb n 32 || (Nat.leb 9 n && Nat.leb n 13).

Fixpoint trimStart (s : string) : string :=
  match s with
  | EmptyString => EmptyString
  | String c rest => if is_space c then trimStart rest else s
  end.

Fixpoint trimEnd (s : string) : string :=
  match s with
  | EmptyString => EmptyString
  | String c rest =>
      match trimEnd rest with
      | EmptyString => if is_space c then EmptyString else String c EmptyString
      | r => String c r
      end
  end.

(** [s.trim()]; the program never calls it, the specification mentions it. *)
Definition trim (s : string) : string := trimEnd (trimStart s).

(* ===================================================================== *)
(** ** Data exchanged with the collaborators                              *)
(* ===================================================================== *)

(** What a JavaScript [throw] carries: an [Error] instance (with its
    message) or any other value. *)
Inductive Thrown : Type :=
| ErrorObject (message : string)
| NonError (v : JsValue).

(** [MessageParam]: one conversation turn. *)
Record MessageParam : Type := mkMessage {
  role : string;
  content : JsValue
}.

(** A content block of a model response: the SDK's discriminated union on
    [type]; [OtherBlock] is any block whose type is neither [text] nor
    [tool_use]. *)
Inductive ContentBlock : Type :=
| TextBlock (text : string)
| ToolUseBlock (id : string) (name : string) (input : JsValue)
| OtherBlock (raw : JsObject).

(** The response of [messages.create]; only [content] is read. *)
Record Message : Type := mkResponse {
  response_content : list ContentBlock
}.

(** The argument of [anthropic.messages.create]. *)
Record MessageCreateParams : Type := mkCreate {
  model : option string;
  max_tokens : Z;
  messages : list MessageParam;
  tools : option (list JsObject)
}.

(** The argument of [mcp.callTool]. *)
Record CallToolParams : Type := mkCallTool {
  tool_name : string;
  arguments : JsValue
}.

(** The result of [mcp.callTool]; only [content] is read. *)
Record CallToolResult : Type := mkToolResult {
  result_content : JsValue
}.

(** The options of [new StdioClientTransport]. *)
Record StdioServerParameters : Type := mkTransport {
  command : string;
  args : list string;
  env : gmap string (option string)
}.

(** An argument of [console.log] / [console.error]. *)
Inductive ConsoleArg : Type :=
| CStr (s : string)
| CVal (v : JsValue)
| CThrown (e : Thrown)
| CResponsePretty (r : Message).  (* JSON.stringify(response, null, 2) *)

(** Everything the program does to the outside, with the outcome the
    outside gave. *)
Inductive Event : Type :=
| EvCreate (p : MessageCreateParams) (r : Thrown + Message)
| EvCallTool (p : CallToolParams) (r : Thrown + CallToolResult)
| EvConsoleLog (a : list ConsoleArg)
| EvConsoleError (a : list ConsoleArg)
| EvNewTransport (p : StdioServerParameters)
| EvConnect (p : StdioServerParameters) (r : Thrown + unit)
| EvListTools (r : Thrown + list JsObject)
| EvMcpClose (r : Thrown + unit)
| EvCreateInterface
| EvQuestion (prompt : string) (r : Thrown + string)
| EvRlClose
| EvExit (code : Z).

(** The collaborators and the host process.  Each oracle answers from the
    history of events, so an oracle may fail at any call, answer
    differently each time, and depend on what was sent before. *)
Record Runtime : Type := mkRuntime {
  anthropic_create : list Event -> MessageCreateParams -> Thrown + Message;
  mcp_callTool : list Event -> CallToolParams -> Thrown + CallToolResult;
  mcp_connect : list Event -> StdioServerParameters -> Thrown + unit;
  mcp_listTools : list Event -> Thrown + list JsObject;
  mcp_close : list Event -> Thrown + unit;
  rl_question : list Event -> string -> Thrown + string;
  process_env : gmap string string;     (* process.env, after dotenv.config() *)
  process_platform : string;            (* process.platform *)
  process_execPath : string;            (* process.execPath *)
  process_argv : list string            (* process.argv *)
}.

(** The mutable fields of the [MCPClient] instance ([this]) and the
    history of events. *)
Record State : Type := mkState {
  trace : list Event;
  this_transport : option StdioServerParameters;
  this_tools : list JsObject
}.

(* ===================================================================== *)
(** ** Effects: state passing with exceptions                             *)
(* ===================================================================== *)

(** An [async] computation: from a state to an outcome ([inl] a thrown
    value, [inr] a result) and the state it leaves. *)
Definition M (A : Type) : Type := State -> (Thrown + A) * State.

Definition ret {A} (a : A) : M A := fun s => (inr a, s).

Definition throw {A} (e : Thrown) : M A := fun s => (inl e, s).

Definition bind {A B} (m : M A) (k : A -> M B) : M B :=
  fun s => match m s with
           | (inr a, s') => k a s'
           | (inl e, s') => (inl e, s')
           end.

Notation "'let!' x ':=' m 'in' k" := (bind m (fun x => k))
  (at level 10, x name, m at level 100, k at level 200,
   format "'[v' 'let!'  x  ':='  m  'in' '/' k ']'").
Notation "'run!' m 'in' k" := (bind m (fun _ => k))
  (at level 10, m at level 100, k at level 200,
   format "'[v' 'run!'  m  'in' '/' k ']'").

(** [try { body } catch (e) { handler e }]. *)
Definition try_catch {A} (body : M A) (handler : Thrown -> M A) : M A :=
  fun s => match body s with
           | (inr a, s') => (inr a, s')
           | (inl e, s') => handler e s'
           end.

(** [try { body } finally { fin }]: [fin] runs either way; when [fin]
    throws, its exception replaces the outcome of [body]. *)
Definition try_finally {A} (body : M A) (fin : M unit) : M A :=
  fun s => match body s with
           | (r, s') =>
               match fin s' with
               | (inr _, s'') => (r, s'')
               | (inl e, s'') => (inl e, s'')
               end
           end.

Definition emit (e : Event) : M unit :=
  fun s => (inr tt, mkState (trace s ++ [e]) (this_transport s) (this_tools s)).

(** A call to an oracle: the outcome is the oracle's, and the call with
    its outcome is recorded. *)
Definition call {A} (ask : list Event -> Thrown + A)
    (ev : Thrown + A -> Event) : M A :=
  fun s => let r := ask (trace s) in
           (r, mkState (trace s ++ [ev r]) (this_transport s) (this_tools s)).

Definition get_tools : M (list JsObject) := fun s => (inr (this_tools s), s).

Definition set_tools (t : list JsObject) : M unit :=
  fun s => (inr tt, mkState (trace s) (this_transport s) t).

Definition set_transport (t : StdioServerParameters) : M unit :=
  fun s => (inr tt, mkState (trace s) (Some t) (this_tools s)).

Definition console_log (a : list ConsoleArg) : M unit := emit (EvConsoleLog a).
Definition console_error (a : list ConsoleArg) : M unit := emit (EvConsoleError a).

(** [for (const x of l) { f x }] with the loop's variables threaded. *)
Fixpoint for_of {A S} (f : A -> S -> M S) (l : list A) (acc : S) : M S :=
  match l with
  | [] => ret acc
  | x :: rest => let! acc' := f x acc in for_of f rest acc'
  end.

(** How a computation at process level completes: it returns, or the
    process is ended by [process.exit]. *)
Inductive Completion (A : Type) : Type :=
| Returned (a : A)
| Exited (code : Z).

Arguments Returned {A} a.
Arguments Exited {A} code.

(* ===================================================================== *)
(** ** The program                                                        *)
(* ===================================================================== *)

Section Program.

Variable rt : Runtime.

(** [process.env.ANTHROPIC_MODEL as string]: [None] when unset. *)
Definition ANTHROPIC_MODEL : option string := process_env rt !! "ANTHROPIC_MODEL".

Definition messages_create (p : MessageCreateParams) : M Message :=
  call (fun h => anthropic_create rt h p) (EvCreate p).

Definition callTool (p : CallToolParams) : M CallToolResult :=
  call (fun h => mcp_callTool rt h p) (EvCallTool p).

Definition js_of_message (m : MessageParam) : JsValue :=
  JObj [("role", JStr (role m)); ("content", content m)].

(** *** handlers.ts: [processQuery] *)

(** The message of the [TypeError] that reading [.type] of
    [content[0]] raises when [content] is empty. *)
Definition undefined_type_error : Thrown :=
  ErrorObject "Cannot read properties of undefined (reading 'type')".

(** [followUpResponse.content[0].type === "text"
       ? followUpResponse.content[0].text : ""] *)
Definition followUp_text (r : Message) : M string :=
  match response_content r with
  | [] => throw undefined_type_error
  | TextBlock text :: _ => ret text
  | _ :: _ => ret ""
  end.

Definition calling_tool_line (toolName : string) (toolArgs : JsValue) : string :=
  "[Calling tool " +:+ toolName +:+ " with args "
  +:+ template (JSON_stringify toolArgs) +:+ "]".

(** The body of the [for] loop over [response.content]; the loop's
    variables are the [messages] array and the [finalText] array. *)
Definition process_content (c : ContentBlock)
    (vars : list MessageParam * list string)
  : M (list MessageParam * list string) :=
  let '(messages, finalText) := vars in
  match c with
  | TextBlock text => ret (messages, finalText ++ [text])
  | ToolUseBlock _ toolName toolArgs =>
      let! result := callTool (mkCallTool toolName toolArgs) in
      let finalText := finalText ++ [calling_tool_line toolName toolArgs] in
      let messages := messages ++ [mkMessage "user" (result_content result)] in
      let! followUpResponse :=
        messages_create (mkCreate ANTHROPIC_MODEL 1000 messages None) in
      let! t := followUp_text followUpResponse in
      ret (messages, finalText ++ [t])
  | OtherBlock _ => ret (messages, finalText)
  end.

(** [error instanceof Error ? error.message : "Unknown error occurred"] *)
Definition error_text (error : Thrown) : string :=
  match error with
  | ErrorObject message => message
  | NonError _ => "Unknown error occurred"
  end.

(** The [try] block of [processQuery]; also gives the final [messages]
    array, which the source discards. *)
Definition processQuery_try (messages : list MessageParam)
  : M (list MessageParam * string) :=
  let! tools := get_tools in
  let! response :=
    messages_create (mkCreate ANTHROPIC_MODEL 1000 messages (Some tools)) in
  run! console_log [CStr "The response from the anthropic api is:";
                    CResponsePretty response] in
  let! vars :=
    for_of process_content (response_content response) (messages, []) in
  ret (fst vars, join nl (snd vars)).

Definition processQuery_catch (error : Thrown) : M string :=
  run! console_error [CStr "Error calling Anthropic API:"; CThrown error] in
  ret ("Error: " +:+ error_text error).

Definition processQuery (query : string) : M string :=
  let! tools := get_tools in
  run! console_log
         [CStr ("In processQuery: " +:+ query);
          CStr ("tools: " +:+ ToString (JArr (List.map (prop "name") tools)))] in
  let messages := [mkMessage "user" (JStr query)] in
  run! console_log
         [CStr ("The messages array is: "
                +:+ template (JSON_stringify (JArr (List.map js_of_message messages))))] in
  try_catch
    (let! r := processQuery_try messages in ret (snd r))
    processQuery_catch.

(** *** src/client/connection.ts: [connectToServer] *)

(** [{...process.env, ANTHROPIC_MODEL: process.env.ANTHROPIC_MODEL}];
    a value [None] is a key bound to [undefined]. *)
Definition transport_env : gmap string (option string) :=
  <["ANTHROPIC_MODEL" := ANTHROPIC_MODEL]> (Some <$> process_env rt).

(** The interpreter for a script, given [isPy]. *)
Definition interpreter (isPy : bool) : string :=
  if isPy
  then (if String.eqb (process_platform rt) "win32" then "python" else "python3")
  else process_execPath rt.

(** The arrow function mapped over [toolsResult.tools]. *)
Definition to_anthropic_tool (tool : JsObject) : JsObject :=
  [("name", prop "name" tool);
   ("description", prop "description" tool);
   ("input_schema", prop "inputSchema" tool)].

Definition connectToServer_try (serverScriptPath : string) : M unit :=
  let isJs := endsWith serverScriptPath ".js" in
  let isPy := endsWith serverScriptPath ".py" in
  if negb isJs && negb isPy
  then throw (ErrorObject "Server script must be a .js or .py file")
  else
    let command := interpreter isPy in
    let transport := mkTransport command [serverScriptPath] transport_env in
    run! emit (EvNewTransport transport) in
    run! set_transport transport in
    run! call (fun h => mcp_connect rt h transport) (EvConnect transport) in
    let! toolsResult := call (mcp_listTools rt) EvListTools in
    let tools := List.map to_anthropic_tool toolsResult in
    run! set_tools tools in
    console_log [CStr "Connected to server with tools:";
                 CVal (JArr (List.map (prop "name") tools))].

Definition connectToServer (serverScriptPath : string) : M unit :=
  try_catch (connectToServer_try serverScriptPath)
    (fun e =>
       run! console_error [CStr "Failed to connect to MCP server:"; CThrown e] in
       throw e).

(** *** src/client/chat-loop.ts: [chatLoop], [cleanup] *)

Definition rl_question_call (prompt : string) : M string :=
  call (fun h => rl_question rt h prompt) (EvQuestion prompt).

(** One iteration of [while (true)]; [true] is [break]. *)
Definition chatLoop_iteration : M bool :=
  let! message := rl_question_call (nl +:+ "Query: ") in
  if String.eqb (toLowerCase message) "quit" then ret true
  else
    run! console_log [CStr ("The message is: " +:+ message)] in
    let! response := processQuery message in
    run! console_log [CStr (nl +:+ response)] in
    run! console_log [CStr ("The response is: " +:+ response)] in
    ret false.

(** A computation that may run forever: [None] is "still running when
    the fuel ran out". *)
Definition D (A : Type) : Type := State -> option ((Thrown + A) * State).

Definition liftD {A} (m : M A) : D A := fun s => Some (m s).

Definition bindD {A B} (m : D A) (k : A -> D B) : D B :=
  fun s => match m s with
           | None => None
           | Some (inr a, s') => k a s'
           | Some (inl e, s') => Some (inl e, s')
           end.

Definition try_finallyD {A} (body : D A) (fin : M unit) : D A :=
  fun s => match body s with
           | None => None
           | Some (r, s') =>
               match fin s' with
               | (inr _, s'') => Some (r, s'')
               | (inl e, s'') => Some (inl e, s'')
               end
           end.

(** [while (true) { if (body) break; }], at most [fuel] iterations. *)
Fixpoint while_true (fuel : nat) (body : M bool) : D unit :=
  match fuel with
  | O => fun _ => None
  | S n => fun s =>
      match body s with
      | (inl e, s') => Some (inl e, s')
      | (inr true, s') => Some (inr tt, s')
      | (inr false, s') => while_true n body s'
      end
  end.

Definition chatLoop (fuel : nat) : D unit :=
  bindD (liftD (emit EvCreateInterface)) (fun _ =>
  try_finallyD
    (bindD (liftD (run! console_log [CStr (nl +:+ "MCP Client Started!")] in
                   console_log [CStr "Type your queries or 'quit' to exit."]))
           (fun _ => while_true fuel chatLoop_iteration))
    (emit EvRlClose)).

Definition cleanup : M unit := call (mcp_close rt) EvMcpClose.

(** *** index.ts: the credential check and [main] *)

(** [!x] for [x : string | undefined]. *)
Definition falsy (x : option string) : bool :=
  match x with
  | None => true
  | Some v => String.eqb v ""
  end.

(** A computation at process level: it may run forever ([None]), throw,
    return, or end the process. *)
Definition P (A : Type) : Type :=
  State -> option ((Thrown + Completion A) * State).

Definition liftP {A} (m : D A) : P A :=
  fun s => match m s with
           | None => None
           | Some (inl e, s') => Some (inl e, s')
           | Some (inr a, s') => Some (inr (Returned a), s')
           end.

(** Sequencing at process level: nothing runs after the process ended. *)
Definition bindP {A B} (m : P A) (k : A -> P B) : P B :=
  fun s => match m s with
           | None => None
           | Some (inl e, s') => Some (inl e, s')
           | Some (inr (Exited code), s') => Some (inr (Exited code), s')
           | Some (inr (Returned a), s') => k a s'
           end.

(** [try { body } finally { fin }] at process level: [fin] runs unless
    the process ended in [body]; when [fin] throws or ends the process,
    that replaces the outcome of [body]. *)
Definition try_finallyP {A} (body : P A) (fin : P unit) : P A :=
  fun s => match body s with
           | None => None
           | Some (inr (Exited code), s') => Some (inr (Exited code), s')
           | Some (r, s') =>
               match fin s' with
               | None => None
               | Some (inl e, s'') => Some (inl e, s'')
               | Some (inr (Exited code), s'') => Some (inr (Exited code), s'')
               | Some (inr (Returned _), s'') => Some (r, s'')
               end
           end.

(** [process.exit(code)]: the process ends here. *)
Definition process_exit {A} (code : Z) : P A :=
  fun s => Some (inr (Exited code),
                 mkState (trace s ++ [EvExit code]) (this_transport s) (this_tools s)).

Definition main (fuel : nat) : P unit :=
  if Nat.ltb (List.length (process_argv rt)) 3
  then liftP (liftD (console_log [CStr "Usage: node index.ts <path_to_server_script>"]))
  else
    try_finallyP
      (liftP (bindD (liftD (connectToServer (nth 2 (process_argv rt) "")))
                    (fun _ => chatLoop fuel)))
      (bindP (liftP (liftD cleanup)) (fun _ => process_exit 0)).

(** The module body of index.ts: the check on the credential, then the
    call of [main]. *)
Definition index_module (fuel : nat) : P unit :=
  let ANTHROPIC_API_KEY := process_env rt !! "ANTHROPIC_API_KEY" in
  if falsy ANTHROPIC_API_KEY
  then liftP (liftD (throw (ErrorObject "ANTHROPIC_API_KEY is not set")))
  else main fuel.

End Program.

(** The state at process start: no event yet, [transport = null],
    [tools = []]. *)
Definition initial : State := mkState [] None [].

(* ===================================================================== *)
(** ** Reading a history                                                  *)
(* ===================================================================== *)

(** The events a computation added: the history it left, without the
    history it started from. *)
Definition events_since (s s' : State) : list Event :=
  drop (List.length (trace s)) (trace s').

(** The tool-channel invocations of a history, in order. *)
Definition tool_invocations (evs : list Event) : list CallToolParams :=
  omap (fun ev => match ev with EvCallTool p _ => Some p | _ => None end) evs.

(** The model calls of a history, in order. *)
Definition model_calls (evs : list Event) : list MessageCreateParams :=
  omap (fun ev => match ev with EvCreate p _ => Some p | _ => None end) evs.

(** A call to a collaborator, as far as the protocol cares: a model call
    with or without the tool catalog, or a tool invocation. *)
Inductive CallShape : Type :=
| ModelCall (with_catalog : bool)
| ToolCall (p : CallToolParams).

Definition call_shape (ev : Event) : option CallShape :=
  match ev with
  | EvCreate p _ => Some (ModelCall (bool_decide (is_Some (tools p))))
  | EvCallTool p _ => Some (ToolCall p)
  | _ => None
  end.

Definition call_shapes (evs : list Event) : list CallShape := omap call_shape evs.

(** The calls to the model API and to the tool channel, with outcomes. *)
Definition is_call (ev : Event) : bool :=
  match ev with
  | EvCreate _ _ | EvCallTool _ _ => true
  | _ => false
  end.

Definition calls (evs : list Event) : list Event := List.filter is_call evs.

(** The [tool_use] items of a response, as invocation requests. *)
Definition tool_uses (items : list ContentBlock) : list CallToolParams :=
  omap (fun c => match c with
                 | ToolUseBlock _ n a => Some (mkCallTool n a)
                 | _ => None
                 end) items.

(** The texts of the [text] items of a response. *)
Definition texts (items : list ContentBlock) : list string :=
  omap (fun c => match c with TextBlock t => Some t | _ => None end) items.

Definition is_text (c : ContentBlock) : bool :=
  match c with TextBlock _ => true | _ => false end.

(** What an event raised inside the orchestrator's [try], if anything: a
    failed model or tool call raises what the call threw, and a follow-up
    response without content raises the [TypeError] of [content[0].type]. *)
Definition raised_by (ev : Event) : option Thrown :=
  match ev with
  | EvCreate _ (inl e) => Some e
  | EvCallTool _ (inl e) => Some e
  | EvCreate p (inr r) =>
      match tools p, response_content r with
      | None, [] => Some undefined_type_error
      | _, _ => None
      end
  | _ => None
  end.

Definition raised (evs : list Event) : list Thrown := omap raised_by evs.

(** The conversation discipline along a sequence of calls that starts
    with conversation [msgs]: a tool invocation that returns is followed
    by one model call whose conversation is [msgs] with one [user] turn
    appended, carrying the tool's result; a call that fails ends the
    sequence. *)
Fixpoint appends_only (msgs : list MessageParam) (cs : list Event) : Prop :=
  match cs with
  | [] => True
  | EvCallTool _ (inl _) :: rest => rest = []
  | EvCallTool _ (inr res) :: EvCreate q r :: rest =>
      messages q = msgs ++ [mkMessage "user" (result_content res)]
      /\ tools q = None
      /\ match r with
         | inl _ => rest = []
         | inr _ => appends_only (messages q) rest
         end
  | _ => False
  end.

(* ===================================================================== *)
(** ** Scripted collaborators, for examples                               *)
(* ===================================================================== *)

Definition exhausted : Thrown := ErrorObject "script exhausted".

(** The n-th model call gets the n-th answer of [answers]. *)
Definition scripted_model (answers : list (Thrown + Message))
    (h : list Event) (_ : MessageCreateParams) : Thrown + Message :=
  nth (List.length (model_calls h)) answers (inl exhausted).

Definition scripted_tools (answers : list (Thrown + CallToolResult))
    (h : list Event) (_ : CallToolParams) : Thrown + CallToolResult :=
  nth (List.length (tool_invocations h)) answers (inl exhausted).

Definition questions (h : list Event) : list string :=
  omap (fun ev => match ev with EvQuestion p _ => Some p | _ => None end) h.

Definition scripted_operator (lines : list string)
    (h : list Event) (_ : string) : Thrown + string :=
  nth (List.length (questions h)) (List.map inr lines) (inl exhausted).

(** A host with scripted collaborators: a channel that connects and
    closes without failure and discovers [discovered]. *)
Definition scripted (answers : list (Thrown + Message))
    (results : list (Thrown + CallToolResult))
    (discovered : list JsObject) (lines : list string)
    (environment : gmap string string) (platform : string)
    (argv : list string) : Runtime :=
  mkRuntime (scripted_model answers) (scripted_tools results)
    (fun _ _ => inr tt) (fun _ => inr discovered) (fun _ => inr tt)
    (scripted_operator lines) environment platform "/usr/bin/node" argv.

Definition text_response (t : string) : Thrown + Message :=
  inr (mkResponse [TextBlock t]).

(* ===================================================================== *)
(** ** Names for the states, parameters and log lines of the program     *)
(* ===================================================================== *)

(** The state [s] with [evs] added to its history. *)
Definition add_events (s : State) (evs : list Event) : State :=
  mkState (trace s ++ evs) (this_transport s) (this_tools s).

Section Names.

Variable rt : Runtime.

(** The parameters of a follow-up call with conversation [msgs]. *)
Definition followUp_params (msgs : list MessageParam) : MessageCreateParams :=
  mkCreate (ANTHROPIC_MODEL rt) 1000 msgs None.

(** The parameters of the round-1 call. *)
Definition round1_params (query : string) (catalog : list JsObject)
  : MessageCreateParams :=
  mkCreate (ANTHROPIC_MODEL rt) 1000 [mkMessage "user" (JStr query)] (Some catalog).

(** The events [processQuery] logs around its calls. *)
Definition entry_logs (query : string) (catalog : list JsObject) : list Event :=
  [EvConsoleLog
     [CStr ("In processQuery: " +:+ query);
      CStr ("tools: " +:+ ToString (JArr (List.map (prop "name") catalog)))];
   EvConsoleLog
     [CStr ("The messages array is: "
            +:+ template (JSON_stringify
                            (JArr (List.map js_of_message
                                     [mkMessage "user" (JStr query)]))))]].

Definition response_log (r : Message) : Event :=
  EvConsoleLog [CStr "The response from the anthropic api is:"; CResponsePretty r].

Definition error_log (e : Thrown) : Event :=
  EvConsoleError [CStr "Error calling Anthropic API:"; CThrown e].

(** What the model answers to the round-1 call of the resolution of
    [query] started in state [s]. *)
Definition round1_response (query : string) (s : State) : Thrown + Message :=
  anthropic_create rt (trace s ++ entry_logs query (this_tools s))
    (round1_params query (this_tools s)).

End Names.

(** The calls a response asks for when nothing fails: per [tool_use]
    item, the invocation and then a model call without the catalog. *)
Definition expected_calls (items : list ContentBlock) : list CallShape :=
  flat_map (fun p => [ToolCall p; ModelCall false]) (tool_uses items).

Definition shape_tool (c : CallShape) : option CallToolParams :=
  match c with ToolCall p => Some p | ModelCall _ => None end.

Definition shape_catalog (c : CallShape) : option bool :=
  match c with ModelCall b => Some b | ToolCall _ => None end.

Definition with_catalog_of (p : MessageCreateParams) : bool :=
  bool_decide (is_Some (tools p)).

(** The prompt, the log lines of [chatLoop] and the errors and log lines
    of [connectToServer] and of the entry point. *)
Definition prompt : string := nl +:+ "Query: ".

Definition message_log (message : string) : Event :=
  EvConsoleLog [CStr ("The message is: " +:+ message)].

Definition response_logs (response : string) : list Event :=
  [EvConsoleLog [CStr (nl +:+ response)];
   EvConsoleLog [CStr ("The response is: " +:+ response)]].

Definition extension_error : Thrown :=
  ErrorObject "Server script must be a .js or .py file".

Definition connect_error_log (e : Thrown) : Event :=
  EvConsoleError [CStr "Failed to connect to MCP server:"; CThrown e].

Definition connected_log (tools : list JsObject) : Event :=
  EvConsoleLog [CStr "Connected to server with tools:";
                CVal (JArr (List.map (prop "name") tools))].

(** The transport [connectToServer] creates for a script. *)
Definition transport_for (rt : Runtime) (serverScriptPath : string)
  : StdioServerParameters :=
  mkTransport (interpreter rt (endsWith serverScriptPath ".py"))
    [serverScriptPath] (transport_env rt).

Definition credential_error : Thrown := ErrorObject "ANTHROPIC_API_KEY is not set".

(** *** Further readings of a resolution *)

(** The rounds that the [tool_use] items [items] of a response cause,
    as a sequence of calls starting from conversation [msgs]: each item
    in turn is invoked with its own name and arguments; an invocation
    that returns is followed by exactly one model call, without catalog,
    whose conversation is [msgs] with one [user] turn appended that
    carries the tool's result, and the next item starts from that
    conversation.  The sequence stops before the items are exhausted
    only where an invocation raises, a follow-up call raises, or a
    follow-up response has no content item. *)
Fixpoint item_rounds (rt : Runtime) (msgs : list MessageParam)
    (items : list CallToolParams) (cs : list Event) {struct items} : Prop :=
  match items with
  | [] => cs = []
  | p :: later =>
      match cs with
      | [EvCallTool p' (inl _)] => p' = p
      | EvCallTool p' (inr res) :: EvCreate q r :: rest =>
          let msgs' := msgs ++ [mkMessage "user" (result_content res)] in
          p' = p
          /\ q = followUp_params rt msgs'
          /\ match r with
             | inl _ => rest = []
             | inr f =>
                 match response_content f with
                 | [] => rest = []
                 | _ :: _ => item_rounds rt msgs' later rest
                 end
             end
      | _ => False
      end
  end.

(** The text a follow-up response contributes: the text of its first
    content item when that is a [text] item, the empty string else. *)
Definition first_text (r : Message) : string :=
  match response_content r with
  | TextBlock t :: _ => t
  | _ => ""
  end.

(** The responses to the model calls made without catalog, in order. *)
Definition followUp_responses (evs : list Event) : list Message :=
  omap (fun ev => match ev with
                  | EvCreate p (inr r) =>
                      match tools p with None => Some r | Some _ => None end
                  | _ => None
                  end) evs.

(** The entries of the output accumulator for the round-1 items, given
    the follow-up responses in order: a text item gives its text, a
    [tool_use] item the diagnostic line and then the text of its
    follow-up, any other item nothing. *)
Fixpoint accumulated (items : list ContentBlock) (followUps : list Message)
  : list string :=
  match items with
  | [] => []
  | TextBlock t :: rest => t :: accumulated rest followUps
  | ToolUseBlock _ n a :: rest =>
      match followUps with
      | f :: more => calling_tool_line n a :: first_text f :: accumulated rest more
      | [] => []
      end
  | OtherBlock _ :: rest => accumulated rest followUps
  end.

Definition is_other (c : ContentBlock) : bool :=
  match c with OtherBlock _ => true | _ => false end.

(** The events of a resolution: calls to the model and to the tool
    channel, and console output. *)
Definition is_resolution_event (ev : Event) : bool :=
  match ev with
  | EvCreate _ _ | EvCallTool _ _ | EvConsoleLog _ | EvConsoleError _ => true
  | _ => false
  end.

(** The events inside the session loop: prompts and resolutions. *)
Definition is_session_event (ev : Event) : bool :=
  match ev with
  | EvQuestion _ _ => true
  | _ => is_resolution_event ev
  end.

(** The events of the connection step. *)
Definition is_connection_event (ev : Event) : bool :=
  match ev with
  | EvNewTransport _ | EvConnect _ _ | EvListTools _
  | EvConsoleLog _ | EvConsoleError _ => true
  | _ => false
  end.

Definition is_teardown (ev : Event) : bool :=
  match ev with
  | EvMcpClose _ | EvExit _ => true
  | _ => false
  end.

Definition usage_log : Event :=
  EvConsoleLog [CStr "Usage: node index.ts <path_to_server_script>"].

Definition started_logs : list Event :=
  [EvConsoleLog [CStr (nl +:+ "MCP Client Started!")];
   EvConsoleLog [CStr "Type your queries or 'quit' to exit."]].

(** The [finally] block of [main], entered in state [s]: the channel is
    closed and, unless closing throws, the process is ended with code 0;
    the outcome of the [try] block is not used either way. *)
Definition cleanup_and_exit (rt : Runtime) (s : State)
  : (Thrown + Completion unit) * State :=
  match mcp_close rt (trace s) with
  | inl e => (inl e, add_events s [EvMcpClose (inl e)])
  | inr u => (inr (Exited 0), add_events s [EvMcpClose (inr u); EvExit 0])
  end.



(** The host [rt] with an operator who types [lines], one per prompt. *)
Definition with_operator (rt : Runtime) (lines : list string) : Runtime :=
  mkRuntime (anthropic_create rt) (mcp_callTool rt) (mcp_connect rt)
    (mcp_listTools rt) (mcp_close rt) (scripted_operator lines)
    (process_env rt) (process_platform rt) (process_execPath rt) (process_argv rt).

(** The query of a round-1 call: the content of the single turn of a
    model call that carries a catalog. *)
Definition round1_query (p : MessageCreateParams) : option JsValue :=
  match tools p, messages p with
  | Some _, [m] => Some (content m)
  | _, _ => None
  end.

(** The queries for which a resolution was started, in order. *)
Definition resolved_queries (evs : list Event) : list JsValue :=
  omap round1_query (model_calls evs).

(* ===================================================================== *)
(** ** Example hosts                                                      *)
(* ===================================================================== *)

Definition tool_a : ContentBlock := ToolUseBlock "tu_1" "alpha" (JObj [("x", JNum "1")]).
Definition tool_b : ContentBlock := ToolUseBlock "tu_2" "beta" JUndefined.

(** Two [tool_use] items; both tools answer; both follow-ups answer text. *)
Definition host_two_tools : Runtime :=
  scripted [inr (mkResponse [TextBlock "Let me look."; tool_a; tool_b]);
            text_response "first"; text_response "second"]
           [inr (mkToolResult (JStr "ra")); inr (mkToolResult (JStr "rb"))]
           [] [] ∅ "linux" [].

(** Two [tool_use] items; the tool channel fails at the first. *)
Definition host_tool_fails : Runtime :=
  scripted [inr (mkResponse [TextBlock "Let me look."; tool_a; tool_b])]
           [inl (ErrorObject "tool not found")]
           [] [] ∅ "linux" [].

(** One [tool_use] item; the tool channel throws a non-[Error] value. *)
Definition host_tool_throws_value : Runtime :=
  scripted [inr (mkResponse [tool_b])] [inl (NonError (JStr "boom"))]
           [] [] ∅ "linux" [].

(** One [tool_use] item whose follow-up response starts with a
    [tool_use] item. *)
Definition host_followUp_tool_use : Runtime :=
  scripted [inr (mkResponse [tool_a]); inr (mkResponse [tool_b])]
           [inr (mkToolResult (JStr "ra"))]
           [] [] ∅ "linux" [].

Definition host_text : Runtime :=
  scripted [text_response "4"] [] [] [] ∅ "linux" [].

(** An operator who answers [QUIT] to the first prompt, then nothing. *)
Definition host_quit : Runtime :=
  scripted [] [] [] ["QUIT"] ∅ "linux" [].

(** An operator who answers [ quit] (with a leading blank). *)
Definition host_blank_quit : Runtime :=
  scripted [text_response "Bye?"] [] [] [" quit"] ∅ "linux" [].

(** A channel that discovers one tool with an object schema. *)
Definition host_one_tool : Runtime :=
  scripted [] []
    [[("name", JStr "web_search"); ("description", JStr "Search the web");
      ("inputSchema", JObj [("type", JStr "object")])]]
    [] ∅ "linux" ["node"; "index.js"; "server.js"].

(** A host without the credential, asked to connect to [server.js]. *)
Definition host_no_key : Runtime :=
  scripted [] [] [] ["quit"] ∅ "linux" ["node"; "index.js"; "server.js"].

(** A host whose credential variable is set to the empty string. *)
Definition host_empty_key : Runtime :=
  scripted [] [] [] ["quit"] (<["ANTHROPIC_API_KEY" := ""]> ∅) "linux"
    ["node"; "index.js"; "server.js"].

(** A host with a credential, asked to connect to [server.py] on
    Windows, whose operator quits at the first prompt. *)
Definition host_with_key : Runtime :=
  scripted [] [] [] ["quit"] (<["ANTHROPIC_API_KEY" := "sk-test"]> ∅) "win32"
    ["node"; "index.js"; "server.py"].

(** One [tool_use] item whose follow-up response has no content. *)
Definition host_empty_followUp : Runtime :=
  scripted [inr (mkResponse [TextBlock "before"; tool_a]); inr (mkResponse [])]
           [inr (mkToolResult (JStr "ra"))]
           [] [] ∅ "linux" [].

(** A model that answers round 1 without any content item. *)
Definition host_silent : Runtime :=
  scripted [inr (mkResponse [])] [] [] [] ∅ "linux" [].

(** An operator whose line reader rejects the first prompt. *)
Definition host_closed_input : Runtime :=
  scripted [] [] [] [] ∅ "linux" [].


(** A host started without a script path. *)
Definition host_no_argument : Runtime :=
  scripted [] [] [] [] (<["ANTHROPIC_API_KEY" := "sk-test"]> ∅) "linux"
    ["node"; "index.js"].

(** A host asked to connect to a Ruby script. *)
Definition host_ruby : Runtime :=
  scripted [] [] [] ["quit"] (<["ANTHROPIC_API_KEY" := "sk-test"]> ∅) "linux"
    ["node"; "index.js"; "server.rb"].

(* ===================================================================== *)
(** * Lemmas and theorems                                                 *)
(* ===================================================================== *)

(* ===================================================================== *)
(** ** Basic facts about histories                                        *)
(* ===================================================================== *)

Lemma add_events_nil s : add_events s [] = s.
Proof. destruct s; unfold add_events; simpl. by rewrite app_nil_r. Qed.

Lemma add_events_app s a b :
  add_events (add_events s a) b = add_events s (a ++ b).
Proof. unfold add_events; simpl. by rewrite <- app_assoc. Qed.

Lemma events_since_add s evs : events_since s (add_events s evs) = evs.
Proof.
  unfold events_since, add_events; simpl.
  by rewrite drop_app_length.
Qed.

Lemma trace_add_events s evs : trace (add_events s evs) = trace s ++ evs.
Proof. reflexivity. Qed.

Lemma calls_app a b : calls (a ++ b) = calls a ++ calls b.
Proof. unfold calls. apply List.filter_app. Qed.

Lemma raised_app a b : raised (a ++ b) = raised a ++ raised b.
Proof. unfold raised. apply omap_app. Qed.

Lemma call_shapes_app a b : call_shapes (a ++ b) = call_shapes a ++ call_shapes b.
Proof. unfold call_shapes. apply omap_app. Qed.

Lemma tool_invocations_app a b :
  tool_invocations (a ++ b) = tool_invocations a ++ tool_invocations b.
Proof. unfold tool_invocations. apply omap_app. Qed.

Lemma model_calls_app a b : model_calls (a ++ b) = model_calls a ++ model_calls b.
Proof. unfold model_calls. apply omap_app. Qed.

Lemma append_assoc (a b c : string) : (a +:+ b) +:+ c = a +:+ (b +:+ c).
Proof.
  induction a as [|ch a IH]; [reflexivity|].
  change (String ch ((a +:+ b) +:+ c) = String ch (a +:+ (b +:+ c))).
  by rewrite IH.
Qed.

Lemma join_snoc sep l x :
  l <> [] -> join sep (l ++ [x]) = join sep l +:+ sep +:+ x.
Proof.
  induction l as [|a l IH]; [done|]. intros _.
  destruct l as [|b l].
  - reflexivity.
  - change (join sep ((a :: b :: l) ++ [x]))
      with (a +:+ sep +:+ join sep ((b :: l) ++ [x])).
    rewrite IH by done.
    change (join sep (a :: b :: l)) with (a +:+ sep +:+ join sep (b :: l)).
    by rewrite !append_assoc.
Qed.

(* ===================================================================== *)
(** ** The loop body, case by case                                        *)
(* ===================================================================== *)

Section Orchestrator.

Variable rt : Runtime.

Lemma process_content_tool_use i n a m ft s :
  process_content rt (ToolUseBlock i n a) (m, ft) s =
  let p := mkCallTool n a in
  match mcp_callTool rt (trace s) p with
  | inl e => (inl e, add_events s [EvCallTool p (inl e)])
  | inr res =>
      let m' := m ++ [mkMessage "user" (result_content res)] in
      let q := followUp_params rt m' in
      match anthropic_create rt (trace s ++ [EvCallTool p (inr res)]) q with
      | inl e => (inl e, add_events s [EvCallTool p (inr res); EvCreate q (inl e)])
      | inr f =>
          let s' := add_events s [EvCallTool p (inr res); EvCreate q (inr f)] in
          match response_content f with
          | [] => (inl undefined_type_error, s')
          | TextBlock t :: _ => (inr (m', ft ++ [calling_tool_line n a; t]), s')
          | _ :: _ => (inr (m', ft ++ [calling_tool_line n a; ""]), s')
          end
      end
  end.
Proof.
  unfold process_content, bind, callTool, messages_create, call, followUp_text,
    followUp_params, add_events, ret, throw; simpl.
  destruct (mcp_callTool rt (trace s) _) as [e|res]; [done|]. simpl.
  destruct (anthropic_create rt _ _) as [e|f];
    rewrite <- ?app_assoc; simpl; [done|].
  destruct (response_content f) as [|[t| |] rest];
    rewrite <- ?app_assoc; simpl; done.
Qed.

Lemma for_of_cons {A S} (f : A -> S -> M S) x rest acc s :
  for_of f (x :: rest) acc s =
  match f x acc s with
  | (inr acc', s') => for_of f rest acc' s'
  | (inl e, s') => (inl e, s')
  end.
Proof. reflexivity. Qed.

(** What the loop over the content items does, whatever the collaborators
    answer. *)
Lemma loop_spec items : forall m ft s,
  exists evs,
    snd (for_of (process_content rt) items (m, ft) s) = add_events s evs
    /\ calls evs = evs
    /\ appends_only m evs
    /\ tool_invocations evs `prefix_of` tool_uses items
    /\ match fst (for_of (process_content rt) items (m, ft) s) with
       | inr _ => raised evs = [] /\ call_shapes evs = expected_calls items
       | inl e => raised evs = [e]
       end.
Proof.
  induction items as [|c items IH]; intros m ft s.
  - exists []. simpl. rewrite add_events_nil. repeat split; try done.
  - destruct c as [t|i n a|raw].
    + destruct (IH m (ft ++ [t]) s) as (evs & ? & ? & ? & ? & ?).
      exists evs. rewrite for_of_cons. simpl. done.
    + rewrite for_of_cons, process_content_tool_use. cbv zeta.
      destruct (mcp_callTool rt (trace s) _) as [e|res] eqn:Htool.
      { eexists. simpl. repeat split; try done.
        unfold tool_uses; simpl. by apply prefix_cons, prefix_nil. }
      destruct (anthropic_create rt _ _) as [e|f] eqn:Hmodel.
      { eexists. simpl. repeat split; try done.
        unfold tool_uses; simpl. by apply prefix_cons, prefix_nil. }
      set (p := mkCallTool n a).
      set (q := followUp_params rt _).
      set (m' := m ++ [mkMessage "user" (result_content res)]) in *.
      assert (Hstep : forall ft' (b : ContentBlock) (more : list ContentBlock),
                 response_content f = b :: more ->
                 exists evs,
                   snd (for_of (process_content rt) items (m', ft')
                          (add_events s [EvCallTool p (inr res); EvCreate q (inr f)]))
                   = add_events s evs
                   /\ calls evs = evs
                   /\ appends_only m evs
                   /\ tool_invocations evs `prefix_of` tool_uses (ToolUseBlock i n a :: items)
                   /\ match fst (for_of (process_content rt) items (m', ft')
                                   (add_events s [EvCallTool p (inr res); EvCreate q (inr f)])) with
                      | inr _ => raised evs = []
                                 /\ call_shapes evs
                                    = expected_calls (ToolUseBlock i n a :: items)
                      | inl e => raised evs = [e]
                      end).
      { intros ft' b more Hc.
        pose proof (IH m' ft'
                      (add_events s [EvCallTool p (inr res); EvCreate q (inr f)]))
          as (evs & Hs & Hcalls & Happ & Hpre & Hout).
        exists ([EvCallTool p (inr res); EvCreate q (inr f)] ++ evs).
        rewrite Hs, add_events_app. split; [done|].
        split; [rewrite calls_app, Hcalls; done|].
        split.
        { simpl. repeat split; try done. }
        split.
        { unfold tool_uses; simpl. by apply prefix_cons. }
        rewrite raised_app, call_shapes_app.
        assert (raised [EvCallTool p (inr res); EvCreate q (inr f)] = []) as ->.
        { unfold raised; simpl. by rewrite Hc. }
        destruct (fst _); [done|].
        destruct Hout as [-> ->]. done. }
      destruct (response_content f) as [|[t|i' n' a'|raw'] more] eqn:Hc.
      * exists [EvCallTool p (inr res); EvCreate q (inr f)]. simpl.
        repeat split; try done.
        -- unfold tool_uses; simpl. by apply prefix_cons, prefix_nil.
        -- unfold raised; simpl. by rewrite Hc.
      * by eapply Hstep.
      * by eapply Hstep.
      * by eapply Hstep.
    + destruct (IH m ft s) as (evs & ? & ? & ? & ? & ?).
      exists evs. rewrite for_of_cons. simpl. done.
Qed.

(** [processQuery], unfolded along the outcomes of its calls. *)
Lemma processQuery_unfold query s :
  processQuery rt query s =
  let s1 := add_events s (entry_logs query (this_tools s)) in
  let p1 := round1_params rt query (this_tools s) in
  match anthropic_create rt (trace s1) p1 with
  | inl e =>
      (inr ("Error: " +:+ error_text e),
       add_events s1 [EvCreate p1 (inl e); error_log e])
  | inr resp =>
      let s2 := add_events s1 [EvCreate p1 (inr resp); response_log resp] in
      match for_of (process_content rt) (response_content resp)
              ([mkMessage "user" (JStr query)], []) s2 with
      | (inr vars, s3) => (inr (join nl (snd vars)), s3)
      | (inl e, s3) =>
          (inr ("Error: " +:+ error_text e), add_events s3 [error_log e])
      end
  end.
Proof.
  unfold processQuery, processQuery_try, processQuery_catch, try_catch, bind,
    get_tools, console_log, console_error, emit, messages_create, call, ret,
    add_events, entry_logs, round1_params; simpl.
  rewrite <- !app_assoc; simpl.
  destruct (anthropic_create rt _ _) as [e|resp]; simpl.
  { by rewrite <- !app_assoc. }
  rewrite <- !app_assoc; simpl.
  destruct (for_of _ _ _ _) as [[e|vars] s3]; simpl; done.
Qed.

(** The whole resolution, whatever the collaborators answer. *)
Lemma processQuery_spec query s :
  exists out evs rest,
    processQuery rt query s = (inr out, add_events s evs)
    /\ calls evs
       = EvCreate (round1_params rt query (this_tools s)) (round1_response rt query s)
           :: rest
    /\ appends_only [mkMessage "user" (JStr query)] rest
    /\ match round1_response rt query s with
       | inl e => rest = [] /\ raised evs = [e]
                  /\ out = "Error: " +:+ error_text e
       | inr resp =>
           tool_invocations evs `prefix_of` tool_uses (response_content resp)
           /\ ((raised evs = []
                /\ call_shapes evs
                   = ModelCall true :: expected_calls (response_content resp))
               \/ (exists e, raised evs = [e]
                             /\ out = "Error: " +:+ error_text e))
       end.
Proof.
  rewrite processQuery_unfold. unfold round1_response. cbv zeta.
  rewrite trace_add_events.
  destruct (anthropic_create rt _ _) as [e|resp].
  { eexists _, _, []. rewrite add_events_app. split; [reflexivity|].
    repeat split; done. }
  set (s2 := add_events (add_events s _) _).
  destruct (loop_spec (response_content resp) [mkMessage "user" (JStr query)] [] s2)
    as (evs' & Hs & Hc & Happ & Hpre & Hout).
  destruct (for_of _ _ _ s2) as [[e|vars] s3]; simpl in Hs, Hout; subst s3.
  - eexists _, _, evs'. unfold s2. rewrite !add_events_app.
    split; [reflexivity|].
    rewrite !calls_app, !raised_app, !tool_invocations_app, Hc, Hout. simpl.
    rewrite ?app_nil_r.
    do 3 (split; [done|]). right. by exists e.
  - eexists _, _, evs'. unfold s2. rewrite !add_events_app.
    split; [reflexivity|].
    destruct Hout as [Hr Hsh].
    rewrite !calls_app, !raised_app, !call_shapes_app, !tool_invocations_app,
      Hc, Hr, Hsh. simpl.
    do 3 (split; [done|]). by left.
Qed.

End Orchestrator.

(* ===================================================================== *)
(** ** Projections of a call sequence                                     *)
(* ===================================================================== *)

Lemma tool_invocations_shapes evs :
  tool_invocations evs = omap shape_tool (call_shapes evs).
Proof.
  induction evs as [|ev evs IH]; [done|].
  destruct ev; simpl; try done. by rewrite IH.
Qed.

Lemma model_calls_shapes evs :
  List.map with_catalog_of (model_calls evs) = omap shape_catalog (call_shapes evs).
Proof.
  induction evs as [|ev evs IH]; [done|].
  destruct ev; simpl; try done. by rewrite IH.
Qed.

Lemma model_calls_calls evs : model_calls (calls evs) = model_calls evs.
Proof.
  induction evs as [|ev evs IH]; [done|].
  destruct ev; simpl; try done. by rewrite IH.
Qed.

Lemma expected_calls_tools items :
  omap shape_tool (expected_calls items) = tool_uses items.
Proof.
  unfold expected_calls.
  induction (tool_uses items) as [|p l IH]; [done|]. simpl. f_equal. apply IH.
Qed.

Lemma expected_calls_catalog items :
  omap shape_catalog (expected_calls items)
  = List.map (fun _ => false) (tool_uses items).
Proof.
  unfold expected_calls.
  induction (tool_uses items) as [|p l IH]; [done|]. simpl. f_equal. apply IH.
Qed.

Lemma with_catalog_false p : with_catalog_of p = false -> tools p = None.
Proof.
  unfold with_catalog_of. destruct (tools p); [|done].
  intros H. apply bool_decide_eq_false in H. destruct H. by eexists.
Qed.

Lemma no_catalog_all (l : list MessageCreateParams) (k : list CallToolParams) :
  List.map with_catalog_of l = List.map (fun _ => false) k ->
  List.length l = List.length k /\ Forall (fun p => tools p = None) l.
Proof.
  revert k. induction l as [|p l IH]; intros [|x k] H; try done.
  simpl in H. injection H as Hp Hl.
  destruct (IH k Hl) as [Hlen Hall]. split; [simpl; by rewrite Hlen|].
  constructor; [by apply with_catalog_false|done].
Qed.

Lemma prefix_append (a b : string) : String.prefix a (a +:+ b) = true.
Proof.
  induction a as [|c a IH]; [by destruct b|].
  change (String c a +:+ b) with (String c (a +:+ b)). simpl.
  destruct (ascii_dec c c); [apply IH|done].
Qed.

(** A loop over [text] items only collects the texts and calls nobody. *)
Lemma loop_text_only rt items : forall m ft s,
  forallb is_text items = true ->
  for_of (process_content rt) items (m, ft) s = (inr (m, ft ++ texts items), s).
Proof.
  induction items as [|c items IH]; intros m ft s Hall.
  - simpl. by rewrite app_nil_r.
  - destruct c as [t| |]; try done. simpl in Hall.
    rewrite for_of_cons. simpl. rewrite IH by done.
    by rewrite <- app_assoc.
Qed.

(* ===================================================================== *)
(** ** The query orchestrator: [processQuery]                             *)
(* ===================================================================== *)

(** C1 (as amended).  In a resolution in which no call raises and every
    follow-up response has a content item, a round-1 response with N
    [tool_use] items leads to exactly N tool invocations and N follow-up
    model calls: the calls are the round-1 call with the catalog and
    then, per [tool_use] item in response order, the invocation with the
    item's name and arguments followed by one model call without the
    catalog. *)
Theorem processQuery_tool_rounds rt query s resp :
  let evs := events_since s (snd (processQuery rt query s)) in
  round1_response rt query s = inr resp ->
  raised evs = [] ->
  call_shapes evs
  = ModelCall true
      :: flat_map (fun p => [ToolCall p; ModelCall false])
           (tool_uses (response_content resp))
  /\ tool_invocations evs = tool_uses (response_content resp)
  /\ exists followUps,
       model_calls evs = round1_params rt query (this_tools s) :: followUps
       /\ List.length followUps = List.length (tool_uses (response_content resp))
       /\ Forall (fun p => tools p = None) followUps.
Proof.
  intros evs Hr1 Hraised. subst evs.
  destruct (processQuery_spec rt query s) as (out & evs & rest & Hrun & Hcalls & _ & H).
  rewrite Hrun in *. simpl in *. rewrite events_since_add in *.
  rewrite Hr1 in H, Hcalls. destruct H as [_ [[_ Hshape]|(e & He & _)]];
    [|by rewrite He in Hraised].
  split; [exact Hshape|].
  split.
  { by rewrite tool_invocations_shapes, Hshape; simpl;
      rewrite expected_calls_tools. }
  pose proof (model_calls_shapes evs) as Hm.
  rewrite Hshape in Hm. simpl in Hm. rewrite expected_calls_catalog in Hm.
  rewrite <- model_calls_calls, Hcalls in Hm |- *. simpl in Hm |- *.
  injection Hm as Hm.
  exists (model_calls rest). split; [done|]. by apply no_catalog_all.
Qed.

Lemma processQuery_tool_rounds_witness :
  let evs := events_since initial (snd (processQuery host_two_tools "q" initial)) in
  List.length (tool_uses [TextBlock "Let me look."; tool_a; tool_b]) = 2
  /\ tool_invocations evs
     = [mkCallTool "alpha" (JObj [("x", JNum "1")]); mkCallTool "beta" JUndefined]
  /\ List.length (model_calls evs) = 3.
Proof.
  destruct (processQuery_tool_rounds host_two_tools "q" initial
              (mkResponse [TextBlock "Let me look."; tool_a; tool_b])
              eq_refl eq_refl) as (_ & Hinv & followUps & Hm & Hlen & _).
  split; [reflexivity|]. split; [exact Hinv|].
  cbv zeta. rewrite Hm. simpl. by rewrite Hlen.
Defined.

(** C1 fails as stated: with two [tool_use] items and a tool channel that
    fails at the first, one tool invocation and no follow-up call occur. *)
Lemma processQuery_tool_rounds_counterexample :
  let evs := events_since initial (snd (processQuery host_tool_fails "q" initial)) in
  round1_response host_tool_fails "q" initial
  = inr (mkResponse [TextBlock "Let me look."; tool_a; tool_b])
  /\ List.length (tool_uses [TextBlock "Let me look."; tool_a; tool_b]) = 2
  /\ List.length (tool_invocations evs) = 1
  /\ List.length (model_calls evs) = 1.
Proof. vm_compute. repeat split. Qed.

(** C2.  When the round-1 response consists of [text] items only, the
    orchestrator returns exactly those texts, joined by newlines; it
    makes no tool-channel call and no second model call. *)
Theorem processQuery_text_only rt query s resp :
  let r := processQuery rt query s in
  let evs := events_since s (snd r) in
  round1_response rt query s = inr resp ->
  forallb is_text (response_content resp) = true ->
  fst r = inr (join nl (texts (response_content resp)))
  /\ tool_invocations evs = []
  /\ model_calls evs = [round1_params rt query (this_tools s)].
Proof.
  intros r evs Hr1 Htext. subst r evs.
  rewrite processQuery_unfold. unfold round1_response in Hr1. cbv zeta.
  rewrite trace_add_events, Hr1, loop_text_only by done.
  cbn [fst snd]. rewrite add_events_app, events_since_add. simpl. done.
Qed.

Lemma processQuery_text_only_witness :
  fst (processQuery host_text "What is 2+2?" initial) = inr "4"
  /\ tool_invocations
       (events_since initial (snd (processQuery host_text "What is 2+2?" initial)))
     = [].
Proof.
  destruct (processQuery_text_only host_text "What is 2+2?" initial
              (mkResponse [TextBlock "4"]) eq_refl eq_refl) as (Hout & Htools & _).
  split; [exact Hout | exact Htools].
Defined.

(** C3.  The orchestrator never raises to its caller: whatever the model
    API and the tool channel do, it returns a string; and whenever
    something was raised inside, that string begins with [Error: ]. *)
Theorem processQuery_never_raises rt query s :
  exists out,
    fst (processQuery rt query s) = inr out
    /\ (raised (events_since s (snd (processQuery rt query s))) <> [] ->
        String.prefix "Error: " out = true).
Proof.
  destruct (processQuery_spec rt query s) as (out & evs & rest & Hrun & _ & _ & H).
  exists out. rewrite Hrun. simpl. rewrite events_since_add.
  split; [done|]. intros Hraised.
  destruct (round1_response rt query s) as [e|resp].
  - destruct H as (_ & _ & ->). apply prefix_append.
  - destruct H as [_ [[Hno _]|(e & _ & ->)]]; [done|]. apply prefix_append.
Qed.

(** C10.  When a call to the model API or to the tool channel raises
    [e] during a resolution, the returned string is the error message of
    [e] alone: whatever had been accumulated is not part of it. *)
Theorem processQuery_error_discards_output rt query s e :
  let r := processQuery rt query s in
  let evs := events_since s (snd r) in
  (exists p, In (EvCreate p (inl e)) evs) \/ (exists p, In (EvCallTool p (inl e)) evs) ->
  fst r = inr ("Error: " +:+ error_text e).
Proof.
  intros r evs Hfail. subst r evs.
  destruct (processQuery_spec rt query s) as (out & evs & rest & Hrun & _ & _ & H).
  rewrite Hrun in *. simpl in *. rewrite events_since_add in Hfail.
  assert (He : e ∈ raised evs).
  { unfold raised. apply list_elem_of_omap.
    destruct Hfail as [[p Hin]|[p Hin]]; eexists; (split; [by apply list_elem_of_In|done]). }
  destruct (round1_response rt query s) as [e'|resp].
  - destruct H as (_ & Hr & ->). rewrite Hr in He.
    apply list_elem_of_singleton in He. by subst.
  - destruct H as [_ [[Hr _]|(e' & Hr & ->)]]; rewrite Hr in He.
    + by apply elem_of_nil in He.
    + apply list_elem_of_singleton in He. by subst.
Qed.

Lemma processQuery_error_discards_output_witness :
  fst (processQuery host_tool_fails "q" initial) = inr "Error: tool not found".
Proof.
  apply (processQuery_error_discards_output host_tool_fails "q" initial
           (ErrorObject "tool not found")).
  right. exists (mkCallTool "alpha" (JObj [("x", JNum "1")])).
  vm_compute. do 4 right. left. reflexivity.
Defined.

(** The calls of the loop over the content items are the rounds of the
    [tool_use] items. *)
Lemma loop_rounds rt items : forall m ft s,
  exists evs,
    snd (for_of (process_content rt) items (m, ft) s) = add_events s evs
    /\ calls evs = evs
    /\ item_rounds rt m (tool_uses items) evs.
Proof.
  induction items as [|c items IH]; intros m ft s.
  - exists []. simpl. by rewrite add_events_nil.
  - destruct c as [t|i n a|raw].
    + destruct (IH m (ft ++ [t]) s) as (evs & ? & ? & ?).
      exists evs. rewrite for_of_cons. simpl. done.
    + rewrite for_of_cons, process_content_tool_use. cbv zeta.
      change (tool_uses (ToolUseBlock i n a :: items))
        with (mkCallTool n a :: tool_uses items).
      destruct (mcp_callTool rt (trace s) _) as [e|res].
      { eexists. split; [reflexivity|]. by split. }
      destruct (anthropic_create rt _ _) as [e|f] eqn:Hmodel.
      { eexists. split; [reflexivity|]. split; [done|]. simpl. by repeat split. }
      set (p := mkCallTool n a).
      set (m' := m ++ [mkMessage "user" (result_content res)]) in *.
      assert (Hstep : forall ft' (b : ContentBlock) (more : list ContentBlock),
                 response_content f = b :: more ->
                 exists evs,
                   snd (for_of (process_content rt) items (m', ft')
                          (add_events s [EvCallTool p (inr res);
                                         EvCreate (followUp_params rt m') (inr f)]))
                   = add_events s evs
                   /\ calls evs = evs
                   /\ item_rounds rt m (p :: tool_uses items) evs).
      { intros ft' b more Hc.
        destruct (IH m' ft'
                    (add_events s [EvCallTool p (inr res);
                                   EvCreate (followUp_params rt m') (inr f)]))
          as (evs & Hs & Hcalls & Hrounds).
        exists ([EvCallTool p (inr res); EvCreate (followUp_params rt m') (inr f)]
                ++ evs).
        rewrite Hs, add_events_app. split; [done|].
        split; [by rewrite calls_app, Hcalls|].
        simpl. rewrite Hc. by repeat split. }
      destruct (response_content f) as [|[t|i' n' a'|raw'] more] eqn:Hc.
      * eexists. split; [reflexivity|]. split; [done|].
        simpl. rewrite Hc. by repeat split.
      * by eapply Hstep.
      * by eapply Hstep.
      * by eapply Hstep.
    + destruct (IH m ft s) as (evs & ? & ? & ?).
      exists evs. rewrite for_of_cons. simpl. done.
Qed.

(** When nothing is raised, the rounds cover every item: the
    conversations of the follow-up calls grow by one turn per item. *)
Lemma item_rounds_complete rt items : forall msgs cs,
  item_rounds rt msgs items cs ->
  raised cs = [] ->
  List.map (fun p => List.length (messages p)) (model_calls cs)
  = seq (S (List.length msgs)) (List.length items).
Proof.
  induction items as [|p items IH]; intros msgs cs Hrounds Hraised.
  - simpl in Hrounds. by subst.
  - simpl in Hrounds.
    destruct cs as [|[|p' [e|res]| | | | | | | | | |] cs]; try done.
    destruct cs as [|[q r| | | | | | | | | | |] rest]; try done.
    destruct Hrounds as (-> & -> & Hr).
    destruct r as [e|f]; [done|].
    unfold raised in Hraised. simpl in Hraised.
    destruct (response_content f) as [|b more] eqn:Hc; [done|].
    simpl. f_equal; [rewrite List.length_app; simpl; lia|].
    rewrite (IH _ rest Hr Hraised).
    rewrite List.length_app. simpl. f_equal. lia.
Qed.

(** C8 (as amended).  The conversation starts as the single turn
    [{role: user, content: query}], which the round-1 call carries, and
    it is only appended to.  When round 1 fails, nothing follows.
    Otherwise the calls that follow are the rounds of the response's
    [tool_use] items, in order: each item is invoked with its name and
    arguments, and each invocation that returns causes exactly one
    append, of a [user] turn carrying the tool's result, followed by
    exactly one model call on the conversation so extended; only a call
    that raises, or a follow-up response without content, ends the
    rounds early.  When nothing is raised every [tool_use] item has its
    round: the conversations sent have 1, 2, ..., N+1 turns. *)
Theorem conversation_rounds rt query s :
  let evs := events_since s (snd (processQuery rt query s)) in
  let turn := mkMessage "user" (JStr query) in
  exists p1 rest,
    calls evs = EvCreate p1 (round1_response rt query s) :: rest
    /\ messages p1 = [turn]
    /\ match round1_response rt query s with
       | inl _ => rest = []
       | inr resp =>
           item_rounds rt [turn] (tool_uses (response_content resp)) rest
           /\ (raised evs = [] ->
               List.map (fun p => List.length (messages p)) (model_calls evs)
               = seq 1 (S (List.length (tool_uses (response_content resp)))))
       end.
Proof.
  cbv zeta. rewrite processQuery_unfold. unfold round1_response. cbv zeta.
  rewrite trace_add_events.
  exists (round1_params rt query (this_tools s)).
  destruct (anthropic_create rt _ _) as [e|resp].
  { exists []. cbn [fst snd]. by rewrite add_events_app, events_since_add. }
  set (s2 := add_events (add_events s _) _).
  destruct (loop_rounds rt (response_content resp)
              [mkMessage "user" (JStr query)] [] s2) as (evs & Hs & Hcalls & Hrounds).
  exists evs.
  destruct (for_of _ _ _ s2) as [[e|vars] s3]; simpl in Hs; subst s3;
    cbn [fst snd]; unfold s2;
    rewrite !add_events_app, events_since_add, !calls_app, !raised_app,
      !model_calls_app, Hcalls; simpl; rewrite ?app_nil_r;
    (split; [done|]); (split; [done|]); (split; [done|]);
    intros Hraised; f_equal;
    exact (item_rounds_complete rt _ _ _ Hrounds Hraised).
Qed.

Lemma conversation_rounds_witness :
  let evs := events_since initial (snd (processQuery host_two_tools "q" initial)) in
  List.length (tool_uses [TextBlock "Let me look."; tool_a; tool_b]) = 2
  /\ List.map (fun p => List.length (messages p)) (model_calls evs) = [1; 2; 3]
  /\ List.map messages (model_calls evs)
     = [[mkMessage "user" (JStr "q")];
        [mkMessage "user" (JStr "q"); mkMessage "user" (JStr "ra")];
        [mkMessage "user" (JStr "q"); mkMessage "user" (JStr "ra");
         mkMessage "user" (JStr "rb")]].
Proof.
  destruct (conversation_rounds host_two_tools "q" initial)
    as (p1 & rest & _ & _ & Hround).
  change (round1_response host_two_tools "q" initial)
    with (inr (mkResponse [TextBlock "Let me look."; tool_a; tool_b])
          : Thrown + Message) in Hround.
  destruct Hround as [_ Hlen].
  split; [reflexivity|]. split; [exact (Hlen eq_refl)|]. reflexivity.
Defined.

(** C8 fails as stated: a [tool_use] item whose tool invocation raises
    causes no append and no follow-up model call. *)
Lemma conversation_append_only_counterexample :
  let evs := events_since initial
               (snd (processQuery host_tool_throws_value "q" initial)) in
  round1_response host_tool_throws_value "q" initial = inr (mkResponse [tool_b])
  /\ tool_uses [tool_b] = [mkCallTool "beta" JUndefined]
  /\ List.map messages (model_calls evs) = [[mkMessage "user" (JStr "q")]].
Proof. vm_compute. repeat split. Qed.

(** C4 (as amended).  For a [tool_use] item whose tool invocation and
    follow-up call return, when the first content item of the follow-up
    response is not a [text] item, the orchestrator appends the empty
    string to the output accumulator after the diagnostic line: the
    joined output has a newline after that line, which it would not
    have had the follow-up contributed no entry. *)
Theorem followUp_non_text_pushes_empty rt i n a m ft s res f b more :
  let m' := m ++ [mkMessage "user" (result_content res)] in
  mcp_callTool rt (trace s) (mkCallTool n a) = inr res ->
  anthropic_create rt (trace s ++ [EvCallTool (mkCallTool n a) (inr res)])
    (followUp_params rt m') = inr f ->
  response_content f = b :: more ->
  is_text b = false ->
  fst (process_content rt (ToolUseBlock i n a) (m, ft) s)
  = inr (m', ft ++ [calling_tool_line n a; ""])
  /\ join nl (ft ++ [calling_tool_line n a; ""])
     = join nl (ft ++ [calling_tool_line n a]) +:+ nl.
Proof.
  intros m' Htool Hmodel Hc Hb. split.
  - rewrite process_content_tool_use. cbv zeta.
    rewrite Htool. fold m'. rewrite Hmodel, Hc.
    by destruct b.
  - change [calling_tool_line n a; ""] with ([calling_tool_line n a] ++ [""]).
    rewrite app_assoc, join_snoc.
    + reflexivity.
    + by destruct ft.
Qed.

Lemma followUp_non_text_pushes_empty_witness :
  fst (process_content host_followUp_tool_use tool_a
         ([mkMessage "user" (JStr "q")], [])
         (mkState [EvCreate (round1_params host_followUp_tool_use "q" [])
                     (inr (mkResponse [tool_a]))] None []))
  = inr ([mkMessage "user" (JStr "q"); mkMessage "user" (JStr "ra")],
         [calling_tool_line "alpha" (JObj [("x", JNum "1")]); ""]).
Proof.
  refine (proj1 (followUp_non_text_pushes_empty host_followUp_tool_use
                   "tu_1" "alpha" (JObj [("x", JNum "1")])
                   [mkMessage "user" (JStr "q")] []
                   (mkState [EvCreate (round1_params host_followUp_tool_use "q" [])
                               (inr (mkResponse [tool_a]))] None [])
                   (mkToolResult (JStr "ra")) (mkResponse [tool_b]) tool_b []
                   eq_refl eq_refl eq_refl eq_refl)).
Defined.

(** C4 fails as stated: with a follow-up response that starts with a
    [tool_use] item the returned string is the diagnostic line followed
    by a newline, not the diagnostic line alone. *)
Lemma followUp_non_text_counterexample :
  let line := calling_tool_line "alpha" (JObj [("x", JNum "1")]) in
  fst (processQuery host_followUp_tool_use "q" initial) = inr (line +:+ nl)
  /\ line +:+ nl <> join nl [line].
Proof. vm_compute. split; [reflexivity | discriminate]. Qed.

(* ===================================================================== *)
(** ** The interactive session: [chatLoop]                                *)
(* ===================================================================== *)

Lemma processQuery_returns rt query s :
  exists out evs, processQuery rt query s = (inr out, add_events s evs).
Proof.
  destruct (processQuery_spec rt query s) as (out & evs & _ & Hrun & _).
  by exists out, evs.
Qed.

Lemma chatLoop_iteration_unfold rt s :
  chatLoop_iteration rt s =
  match rl_question rt (trace s) prompt with
  | inl e => (inl e, add_events s [EvQuestion prompt (inl e)])
  | inr message =>
      let s1 := add_events s [EvQuestion prompt (inr message)] in
      if String.eqb (toLowerCase message) "quit" then (inr true, s1)
      else
        match processQuery rt message (add_events s1 [message_log message]) with
        | (inr response, s3) => (inr false, add_events s3 (response_logs response))
        | (inl e, s3) => (inl e, s3)
        end
  end.
Proof.
  unfold chatLoop_iteration, bind, rl_question_call, call. fold prompt.
  destruct (rl_question rt (trace s) prompt) as [e|message]; [done|].
  fold (add_events s [EvQuestion prompt (inr message)]). cbv zeta.
  destruct (String.eqb _ "quit"); [done|].
  unfold console_log, emit, ret.
  fold (add_events (add_events s [EvQuestion prompt (inr message)])
          [message_log message]).
  destruct (processQuery rt message _) as [[e|response] s3]; [done|].
  unfold add_events, response_logs; simpl. by rewrite <- !app_assoc.
Qed.

(** C5 (as amended).  The loop exits, without another prompt and without
    calling the orchestrator, exactly when the case-folded input equals
    [quit] (the input is not trimmed); for every other input the raw
    line is passed to the orchestrator, the returned string is printed,
    and the loop goes on. *)
Theorem chatLoop_quit_or_query rt fuel s message :
  rl_question rt (trace s) prompt = inr message ->
  (toLowerCase message = "quit" ->
     while_true (S fuel) (chatLoop_iteration rt) s
     = Some (inr tt, add_events s [EvQuestion prompt (inr message)]))
  /\ (toLowerCase message <> "quit" ->
      exists response evs,
        processQuery rt message
          (add_events s [EvQuestion prompt (inr message); message_log message])
        = (inr response,
           add_events s ([EvQuestion prompt (inr message); message_log message] ++ evs))
        /\ chatLoop_iteration rt s
           = (inr false,
              add_events s ([EvQuestion prompt (inr message); message_log message]
                            ++ evs ++ response_logs response))
        /\ while_true (S fuel) (chatLoop_iteration rt) s
           = while_true fuel (chatLoop_iteration rt)
               (add_events s ([EvQuestion prompt (inr message); message_log message]
                              ++ evs ++ response_logs response))).
Proof.
  intros Hq. split; intros Hm.
  - simpl. rewrite chatLoop_iteration_unfold, Hq. cbv zeta.
    rewrite Hm. reflexivity.
  - apply String.eqb_neq in Hm.
    destruct (processQuery_returns rt message
                (add_events s [EvQuestion prompt (inr message); message_log message]))
      as (response & evs & Hrun).
    exists response, evs.
    assert (Hit : chatLoop_iteration rt s
                  = (inr false,
                     add_events s ([EvQuestion prompt (inr message); message_log message]
                                   ++ evs ++ response_logs response))).
    { rewrite chatLoop_iteration_unfold, Hq. cbv zeta. rewrite Hm.
      rewrite add_events_app. simpl app. rewrite Hrun.
      rewrite !add_events_app. reflexivity. }
    split; [by rewrite Hrun, add_events_app|].
    split; [exact Hit|]. simpl. by rewrite Hit.
Qed.

Lemma chatLoop_quit_or_query_witness :
  while_true 1 (chatLoop_iteration host_quit) initial
  = Some (inr tt, add_events initial [EvQuestion prompt (inr "QUIT")]).
Proof.
  exact (proj1 (chatLoop_quit_or_query host_quit 0 initial "QUIT" eq_refl) eq_refl).
Defined.

(** C5 fails as stated: the input [ quit] equals [quit] once trimmed and
    case-folded, yet the loop does not exit and the orchestrator is
    called with it. *)
Lemma chatLoop_quit_counterexample :
  toLowerCase (trim " quit") = "quit"
  /\ fst (chatLoop_iteration host_blank_quit initial) = inr false
  /\ List.map messages
       (model_calls (trace (snd (chatLoop_iteration host_blank_quit initial))))
     = [[mkMessage "user" (JStr " quit")]].
Proof. vm_compute. repeat split. Qed.

(* ===================================================================== *)
(** ** The connection step: [connectToServer]                             *)
(* ===================================================================== *)

Lemma connectToServer_unfold rt path s :
  connectToServer rt path s =
  if negb (endsWith path ".js") && negb (endsWith path ".py")
  then (inl extension_error, add_events s [connect_error_log extension_error])
  else
    let t := transport_for rt path in
    let st evs tools := mkState (trace s ++ EvNewTransport t :: evs) (Some t) tools in
    match mcp_connect rt (trace s ++ [EvNewTransport t]) t with
    | inl e =>
        (inl e, st [EvConnect t (inl e); connect_error_log e] (this_tools s))
    | inr u =>
        match mcp_listTools rt (trace s ++ [EvNewTransport t; EvConnect t (inr u)]) with
        | inl e =>
            (inl e,
             st [EvConnect t (inr u); EvListTools (inl e); connect_error_log e]
               (this_tools s))
        | inr discovered =>
            let tools := List.map to_anthropic_tool discovered in
            (inr tt,
             st [EvConnect t (inr u); EvListTools (inr discovered);
                 connected_log tools] tools)
        end
    end.
Proof.
  unfold connectToServer, connectToServer_try, try_catch, transport_for.
  destruct (negb (endsWith path ".js") && negb (endsWith path ".py")); [done|].
  unfold bind, emit, set_transport, set_tools, call, console_log, console_error,
    throw; simpl.
  destruct (mcp_connect rt _ _) as [e|u]; simpl.
  { by rewrite <- !app_assoc. }
  rewrite <- !app_assoc; simpl.
  destruct (mcp_listTools rt _) as [e|discovered]; simpl;
    by rewrite <- !app_assoc.
Qed.

Lemma endsWith_eq s suffix :
  endsWith s suffix = true ->
  substring (String.length s - String.length suffix) (String.length suffix) s
  = suffix.
Proof.
  unfold endsWith. intros H. apply andb_prop in H as [_ H].
  by apply String.eqb_eq in H.
Qed.

Lemma endsWith_js_not_py path :
  endsWith path ".js" = true -> endsWith path ".py" = false.
Proof.
  intros Hjs. destruct (endsWith path ".py") eqn:Hpy; [|done].
  apply endsWith_eq in Hjs. apply endsWith_eq in Hpy.
  simpl in Hjs, Hpy. congruence.
Qed.

(** C6.  For every tool descriptor that discovery returns, the
    connection step produces, at the same position of the catalog, a
    descriptor whose [input_schema] is the discovered [inputSchema]
    unchanged and which has no [inputSchema] key: its keys are [name],
    [description] and [input_schema], the first two copied. *)
Theorem connectToServer_renames_schema rt path s s' :
  connectToServer rt path s = (inr tt, s') ->
  exists discovered,
    In (EvListTools (inr discovered)) (events_since s s')
    /\ Forall2 (fun tool d =>
                  prop "input_schema" d = prop "inputSchema" tool
                  /\ has_key "inputSchema" d = false
                  /\ List.map fst d = ["name"; "description"; "input_schema"]
                  /\ prop "name" d = prop "name" tool
                  /\ prop "description" d = prop "description" tool)
         discovered (this_tools s').
Proof.
  rewrite connectToServer_unfold.
  destruct (_ && _); [done|]. cbv zeta.
  destruct (mcp_connect rt _ _) as [e|u]; [done|].
  destruct (mcp_listTools rt _) as [e|discovered]; [done|].
  intros [= <-]. exists discovered. split.
  - unfold events_since; simpl. rewrite drop_app_length. simpl. tauto.
  - simpl. induction discovered as [|tool l IH]; constructor; [|exact IH].
    repeat split.
Qed.

Lemma connectToServer_renames_schema_witness :
  exists discovered,
    In (EvListTools (inr discovered))
      (events_since initial (snd (connectToServer host_one_tool "server.js" initial)))
    /\ Forall2 (fun tool d =>
                  prop "input_schema" d = prop "inputSchema" tool
                  /\ has_key "inputSchema" d = false
                  /\ List.map fst d = ["name"; "description"; "input_schema"]
                  /\ prop "name" d = prop "name" tool
                  /\ prop "description" d = prop "description" tool)
         discovered
         (this_tools (snd (connectToServer host_one_tool "server.js" initial))).
Proof.
  apply (connectToServer_renames_schema host_one_tool "server.js" initial).
  vm_compute. reflexivity.
Defined.

(** C7.  A script path that ends neither in [.js] nor in [.py] makes
    [connectToServer] fail before a transport is created or a channel
    opened: the only event is the error log, and [this.transport] is
    unchanged.  For a [.py] path the transport's command is [python] on
    [win32] and [python3] elsewhere; for a [.js] path it is the
    runtime's own executable. *)
Theorem connectToServer_extension rt path s :
  (endsWith path ".js" = false -> endsWith path ".py" = false ->
     connectToServer rt path s
     = (inl extension_error, add_events s [connect_error_log extension_error]))
  /\ (endsWith path ".py" = true ->
      exists rest,
        events_since s (snd (connectToServer rt path s))
        = EvNewTransport
            (mkTransport
               (if String.eqb (process_platform rt) "win32" then "python" else "python3")
               [path] (transport_env rt)) :: rest)
  /\ (endsWith path ".js" = true ->
      exists rest,
        events_since s (snd (connectToServer rt path s))
        = EvNewTransport (mkTransport (process_execPath rt) [path] (transport_env rt))
            :: rest).
Proof.
  assert (Hfirst : negb (endsWith path ".js") && negb (endsWith path ".py") = false ->
                   exists rest, events_since s (snd (connectToServer rt path s))
                                = EvNewTransport (transport_for rt path) :: rest).
  { intros Hext. rewrite connectToServer_unfold, Hext. cbv zeta.
    unfold events_since.
    destruct (mcp_connect rt _ _) as [e|u];
      [|destruct (mcp_listTools rt _) as [e|discovered]];
      simpl; rewrite drop_app_length; by eexists. }
  split; [|split].
  - intros Hjs Hpy. by rewrite connectToServer_unfold, Hjs, Hpy.
  - intros Hpy. destruct Hfirst as [rest Hrest].
    { rewrite Hpy. by rewrite andb_false_r. }
    exists rest. rewrite Hrest. unfold transport_for, interpreter. by rewrite Hpy.
  - intros Hjs. destruct Hfirst as [rest Hrest].
    { by rewrite Hjs. }
    exists rest. rewrite Hrest. unfold transport_for, interpreter.
    by rewrite (endsWith_js_not_py path Hjs).
Qed.

Lemma connectToServer_extension_witness :
  connectToServer host_one_tool "server.rb" initial
  = (inl extension_error, add_events initial [connect_error_log extension_error]).
Proof.
  exact (proj1 (connectToServer_extension host_one_tool "server.rb" initial)
           eq_refl eq_refl).
Defined.

(* ===================================================================== *)
(** ** The entry point: credential check and [main]                       *)
(* ===================================================================== *)

(** C9 (as amended).  When the credential variable is absent, or present
    with the empty string as its value, the module body throws at
    startup, before anything else happens: no event, no transport.  When
    it is present with a non-empty value, startup proceeds to [main]. *)
Theorem credential_check rt fuel s :
  (process_env rt !! "ANTHROPIC_API_KEY" = None
   \/ process_env rt !! "ANTHROPIC_API_KEY" = Some "" ->
   index_module rt fuel s = Some (inl credential_error, s))
  /\ (forall key, process_env rt !! "ANTHROPIC_API_KEY" = Some key -> key <> "" ->
      index_module rt fuel s = main rt fuel s).
Proof.
  unfold index_module. split.
  - by intros [-> | ->].
  - intros key -> Hkey. simpl.
    apply String.eqb_neq in Hkey. by rewrite Hkey.
Qed.

Lemma credential_check_witness :
  index_module host_no_key 3 initial = Some (inl credential_error, initial)
  /\ index_module host_with_key 3 initial = main host_with_key 3 initial.
Proof.
  split.
  - apply (proj1 (credential_check host_no_key 3 initial)). left. reflexivity.
  - apply (proj2 (credential_check host_with_key 3 initial) "sk-test");
      [reflexivity | discriminate].
Defined.

(** C9 fails as stated: with the variable present but empty, the process
    aborts at startup all the same. *)
Lemma credential_check_counterexample :
  process_env host_empty_key !! "ANTHROPIC_API_KEY" = Some ""
  /\ index_module host_empty_key 3 initial = Some (inl credential_error, initial)
  /\ index_module host_empty_key 3 initial <> main host_empty_key 3 initial.
Proof. vm_compute. repeat split. discriminate. Qed.

(* ===================================================================== *)
(** ** More on the orchestrator                                           *)
(* ===================================================================== *)

Lemma followUp_responses_app a b :
  followUp_responses (a ++ b) = followUp_responses a ++ followUp_responses b.
Proof. unfold followUp_responses. apply omap_app. Qed.

(** The accumulator and the parameters of the model calls along the
    loop over the content items. *)
Lemma loop_details rt items : forall m ft s,
  exists evs,
    snd (for_of (process_content rt) items (m, ft) s) = add_events s evs
    /\ Forall (fun p => exists msgs, p = followUp_params rt msgs) (model_calls evs)
    /\ match fst (for_of (process_content rt) items (m, ft) s) with
       | inr vars => snd vars = ft ++ accumulated items (followUp_responses evs)
       | inl _ => True
       end.
Proof.
  induction items as [|c items IH]; intros m ft s.
  - exists []. simpl. rewrite add_events_nil, app_nil_r. by repeat split.
  - destruct c as [t|i n a|raw].
    + destruct (IH m (ft ++ [t]) s) as (evs & Hs & Hp & Hout).
      exists evs. rewrite for_of_cons. simpl. do 2 (split; [done|]).
      destruct (fst _); [done|]. by rewrite Hout, <- app_assoc.
    + rewrite for_of_cons, process_content_tool_use. cbv zeta.
      destruct (mcp_callTool rt (trace s) _) as [e|res].
      { eexists. split; [reflexivity|]. split; [constructor|done]. }
      destruct (anthropic_create rt _ _) as [e|f] eqn:Hmodel.
      { eexists. split; [reflexivity|]. split; [|done].
        simpl. constructor; [by eexists|constructor]. }
      set (p := mkCallTool n a).
      set (m' := m ++ [mkMessage "user" (result_content res)]) in *.
      set (q := followUp_params rt m') in *.
      assert (Hstep : forall t,
                 first_text f = t ->
                 exists evs,
                   snd (for_of (process_content rt) items
                          (m', ft ++ [calling_tool_line n a; t])
                          (add_events s [EvCallTool p (inr res); EvCreate q (inr f)]))
                   = add_events s evs
                   /\ Forall (fun p => exists msgs, p = followUp_params rt msgs)
                        (model_calls evs)
                   /\ match fst (for_of (process_content rt) items
                                   (m', ft ++ [calling_tool_line n a; t])
                                   (add_events s [EvCallTool p (inr res);
                                                  EvCreate q (inr f)])) with
                      | inr vars =>
                          snd vars
                          = ft ++ accumulated (ToolUseBlock i n a :: items)
                                    (followUp_responses evs)
                      | inl _ => True
                      end).
      { intros t Ht.
        destruct (IH m' (ft ++ [calling_tool_line n a; t])
                    (add_events s [EvCallTool p (inr res); EvCreate q (inr f)]))
          as (evs & Hs & Hp & Hout).
        exists ([EvCallTool p (inr res); EvCreate q (inr f)] ++ evs).
        rewrite Hs, add_events_app. split; [done|].
        split.
        { simpl. constructor; [by eexists | exact Hp]. }
        destruct (fst _); [done|].
        rewrite Hout, followUp_responses_app. simpl.
        by rewrite Ht, <- app_assoc. }
      destruct (response_content f) as [|[t|i' n' a'|raw'] more] eqn:Hc.
      * eexists. split; [reflexivity|]. split; [|done].
        simpl. constructor; [by eexists|constructor].
      * apply Hstep. unfold first_text. by rewrite Hc.
      * apply Hstep. unfold first_text. by rewrite Hc.
      * apply Hstep. unfold first_text. by rewrite Hc.
    + destruct (IH m ft s) as (evs & Hs & Hp & Hout).
      exists evs. rewrite for_of_cons. simpl. done.
Qed.

(** X1.  The returned string of a resolution in which nothing is raised: the
    texts of the round-1 items and, for each [tool_use] item, the
    diagnostic line followed by the text of its follow-up response, in
    the order of the items, joined by newlines. *)
Theorem processQuery_output rt query s resp :
  let r := processQuery rt query s in
  let evs := events_since s (snd r) in
  round1_response rt query s = inr resp ->
  raised evs = [] ->
  fst r = inr (join nl (accumulated (response_content resp) (followUp_responses evs))).
Proof.
  intros r evs Hr1 Hraised. subst r evs.
  rewrite processQuery_unfold in Hraised |- *. unfold round1_response in Hr1.
  cbv zeta in Hraised |- *. rewrite trace_add_events, Hr1 in Hraised |- *.
  set (s2 := add_events (add_events s _) _) in *.
  destruct (loop_spec rt (response_content resp)
              [mkMessage "user" (JStr query)] [] s2) as (evs1 & Hs1 & _ & _ & _ & Hr).
  destruct (loop_details rt (response_content resp)
              [mkMessage "user" (JStr query)] [] s2) as (evs2 & Hs2 & _ & Hout).
  destruct (for_of _ _ _ s2) as [[e|vars] s3]; simpl in Hs1, Hs2, Hr, Hout; subst s3.
  - exfalso. cbn [fst snd] in Hraised. unfold s2 in Hraised.
    rewrite !add_events_app, events_since_add, !raised_app, Hr in Hraised.
    by destruct (raised _).
  - cbn [fst snd]. unfold s2 in Hs2 |- *. rewrite Hs2.
    rewrite !add_events_app, events_since_add, Hout, !followUp_responses_app.
    done.
Qed.

Lemma processQuery_output_witness :
  fst (processQuery host_two_tools "q" initial)
  = inr (join nl ["Let me look.";
                  calling_tool_line "alpha" (JObj [("x", JNum "1")]); "first";
                  calling_tool_line "beta" JUndefined; "second"]).
Proof.
  exact (processQuery_output host_two_tools "q" initial
           (mkResponse [TextBlock "Let me look."; tool_a; tool_b])
           eq_refl eq_refl).
Defined.

(** X2.  Whatever happens, the tools invoked during a resolution are an
    initial segment of the [tool_use] items of the round-1 response, in
    the order of the response: no tool is invoked that was not asked
    for, and none out of order; when round 1 itself fails, no tool is
    invoked at all and no further model call is made. *)
Theorem processQuery_invokes_prefix rt query s :
  let evs := events_since s (snd (processQuery rt query s)) in
  match round1_response rt query s with
  | inr resp => tool_invocations evs `prefix_of` tool_uses (response_content resp)
  | inl _ => tool_invocations evs = [] /\ model_calls evs = [round1_params rt query (this_tools s)]
  end.
Proof.
  cbv zeta.
  destruct (processQuery_spec rt query s) as (out & evs & rest & Hrun & Hcalls & _ & H).
  rewrite Hrun. simpl. rewrite events_since_add.
  destruct (round1_response rt query s) as [e|resp].
  - destruct H as (-> & _ & _).
    split.
    + assert (Ht : tool_invocations (calls evs) = tool_invocations evs).
      { clear. induction evs as [|ev evs IH]; [done|].
        destruct ev; simpl; try done. by rewrite IH. }
      by rewrite <- Ht, Hcalls.
    + by rewrite <- model_calls_calls, Hcalls.
  - by destruct H as [H _].
Qed.

(** The model calls of a resolution: the round-1 call, then calls with
    the parameters of a follow-up. *)
Lemma model_calls_of_resolution rt query s :
  exists followUps,
    model_calls (events_since s (snd (processQuery rt query s)))
    = round1_params rt query (this_tools s) :: followUps
    /\ Forall (fun p => exists msgs, p = followUp_params rt msgs) followUps.
Proof.
  rewrite processQuery_unfold. cbv zeta. rewrite trace_add_events.
  destruct (anthropic_create rt _ _) as [e|resp].
  { exists []. cbn [fst snd]. rewrite add_events_app, events_since_add.
    split; [reflexivity|constructor]. }
  set (s2 := add_events (add_events s _) _).
  destruct (loop_details rt (response_content resp)
              [mkMessage "user" (JStr query)] [] s2) as (evs & Hs & Hp & _).
  exists (model_calls evs). split; [|exact Hp].
  destruct (for_of _ _ _ s2) as [[e|vars] s3]; simpl in Hs; subst s3;
    cbn [fst snd]; unfold s2;
    rewrite !add_events_app, events_since_add, !model_calls_app; simpl;
    by rewrite ?app_nil_r.
Qed.

(** X3.  Every model call of a resolution asks for at most 1000 tokens from
    the model named by [ANTHROPIC_MODEL]; the first call carries the
    conversation [{role: user, content: query}] and the catalog held by
    the client, and no later call carries a catalog. *)
Theorem processQuery_model_calls rt query s :
  exists followUps,
    model_calls (events_since s (snd (processQuery rt query s)))
    = mkCreate (process_env rt !! "ANTHROPIC_MODEL") 1000
        [mkMessage "user" (JStr query)] (Some (this_tools s)) :: followUps
    /\ Forall (fun p => max_tokens p = 1000%Z
                        /\ model p = process_env rt !! "ANTHROPIC_MODEL"
                        /\ tools p = None) followUps.
Proof.
  destruct (model_calls_of_resolution rt query s) as (followUps & Hm & Hf).
  exists followUps. split.
  - rewrite Hm. reflexivity.
  - eapply Forall_impl; [exact Hf|].
    intros p [msgs ->]. unfold followUp_params, ANTHROPIC_MODEL. simpl.
    by repeat split.
Qed.

(** X4.  A follow-up response without any content item makes the whole
    resolution return the message of the [TypeError] raised by reading
    [content[0].type]. *)
Theorem processQuery_empty_followUp rt query s p f :
  let r := processQuery rt query s in
  In (EvCreate p (inr f)) (events_since s (snd r)) ->
  tools p = None ->
  response_content f = [] ->
  fst r = inr "Error: Cannot read properties of undefined (reading 'type')".
Proof.
  intros r Hin Hp Hf. subst r.
  destruct (processQuery_spec rt query s) as (out & evs & rest & Hrun & _ & _ & H).
  rewrite Hrun in *. simpl in *. rewrite events_since_add in Hin.
  assert (He : undefined_type_error ∈ raised evs).
  { unfold raised. apply list_elem_of_omap.
    exists (EvCreate p (inr f)). split; [by apply list_elem_of_In|].
    simpl. by rewrite Hp, Hf. }
  destruct (round1_response rt query s) as [e'|resp].
  - destruct H as (_ & Hr & ->). rewrite Hr in He.
    apply list_elem_of_singleton in He. by subst.
  - destruct H as [_ [[Hr _]|(e' & Hr & ->)]]; rewrite Hr in He.
    + by apply elem_of_nil in He.
    + apply list_elem_of_singleton in He. by subst.
Qed.

Lemma processQuery_empty_followUp_witness :
  fst (processQuery host_empty_followUp "q" initial)
  = inr "Error: Cannot read properties of undefined (reading 'type')".
Proof.
  apply (processQuery_empty_followUp host_empty_followUp "q" initial
           (followUp_params host_empty_followUp
              [mkMessage "user" (JStr "q"); mkMessage "user" (JStr "ra")])
           (mkResponse [])); [|reflexivity|reflexivity].
  vm_compute. do 5 right. left. reflexivity.
Defined.

(** X5.  Content items that are neither [text] nor [tool_use] are skipped:
    the loop behaves as if they were not in the response. *)
Theorem loop_skips_other_items rt items : forall vars s,
  for_of (process_content rt) items vars s
  = for_of (process_content rt) (List.filter (fun c => negb (is_other c)) items) vars s.
Proof.
  induction items as [|c items IH]; intros [m ft] s; [done|].
  destruct c as [t|i n a|raw]; simpl List.filter.
  - rewrite !for_of_cons. simpl. apply IH.
  - rewrite !for_of_cons.
    destruct (process_content rt (ToolUseBlock i n a) (m, ft) s) as [[e|vars] s'];
      [done|apply IH].
  - rewrite for_of_cons. simpl. apply IH.
Qed.

(** X6.  A round-1 response without content items resolves to the empty
    string, with no further call. *)
Theorem processQuery_empty_response rt query s :
  round1_response rt query s = inr (mkResponse []) ->
  processQuery rt query s
  = (inr "",
     add_events s (entry_logs query (this_tools s)
                   ++ [EvCreate (round1_params rt query (this_tools s))
                         (inr (mkResponse []));
                       response_log (mkResponse [])])).
Proof.
  intros Hr1. rewrite processQuery_unfold. unfold round1_response in Hr1.
  cbv zeta. rewrite trace_add_events, Hr1. simpl.
  by rewrite add_events_app.
Qed.

Lemma processQuery_empty_response_witness :
  fst (processQuery host_silent "q" initial) = inr "".
Proof.
  rewrite (processQuery_empty_response host_silent "q" initial eq_refl).
  reflexivity.
Defined.

(* ===================================================================== *)
(** ** More on the interactive session                                    *)
(* ===================================================================== *)

Lemma calls_fixed_all evs :
  calls evs = evs -> Forall (fun ev => is_call ev = true) evs.
Proof.
  intros H. apply List.Forall_forall. intros x Hx.
  rewrite <- H in Hx. unfold calls in Hx.
  by apply List.filter_In in Hx as [_ ?].
Qed.

(** A resolution only calls the model and the tool channel and writes to
    the console. *)
Lemma processQuery_events rt query s :
  exists out evs,
    processQuery rt query s = (inr out, add_events s evs)
    /\ Forall (fun ev => is_resolution_event ev = true) evs.
Proof.
  rewrite processQuery_unfold. cbv zeta. rewrite trace_add_events.
  destruct (anthropic_create rt _ _) as [e|resp].
  { eexists _, _. rewrite add_events_app. split; [reflexivity|].
    repeat constructor. }
  set (s2 := add_events (add_events s _) _).
  destruct (loop_spec rt (response_content resp)
              [mkMessage "user" (JStr query)] [] s2) as (evs & Hs & Hc & _).
  apply calls_fixed_all in Hc.
  assert (Hres : Forall (fun ev => is_resolution_event ev = true) evs).
  { eapply Forall_impl; [exact Hc|]. by intros [] ?. }
  destruct (for_of _ _ _ s2) as [[e|vars] s3]; simpl in Hs; subst s3;
    eexists _, _; unfold s2; rewrite !add_events_app;
    (split; [reflexivity|]).
  - repeat (apply Forall_cons; split; [done|]).
    apply Forall_app. split; [done|]. by repeat constructor.
  - repeat (apply Forall_cons; split; [done|]). done.
Qed.

(** How the loop ends, when it ends: after a prompt that was answered by
    a case variant of [quit], or with the exception of a prompt that was
    rejected.  In between there are only prompts and resolutions. *)
Lemma while_true_ends rt fuel : forall s r s',
  while_true fuel (chatLoop_iteration rt) s = Some (r, s') ->
  exists evs last,
    s' = add_events s (evs ++ [last])
    /\ Forall (fun ev => is_session_event ev = true) evs
    /\ match r with
       | inr _ => exists m, last = EvQuestion prompt (inr m) /\ toLowerCase m = "quit"
       | inl e => last = EvQuestion prompt (inl e)
       end.
Proof.
  induction fuel as [|fuel IH]; intros s r s' Hrun; [done|].
  simpl in Hrun. rewrite chatLoop_iteration_unfold in Hrun.
  destruct (rl_question rt (trace s) prompt) as [e|m] eqn:Hq.
  { injection Hrun as <- <-. exists [], (EvQuestion prompt (inl e)). by repeat split. }
  cbv zeta in Hrun.
  destruct (String.eqb (toLowerCase m) "quit") eqn:Hm.
  { injection Hrun as <- <-. exists [], (EvQuestion prompt (inr m)).
    repeat split; [done|]. exists m. split; [done|]. by apply String.eqb_eq. }
  destruct (processQuery_events rt m
              (add_events (add_events s [EvQuestion prompt (inr m)]) [message_log m]))
    as (out & evs & Hpq & Hevs).
  rewrite Hpq in Hrun.
  apply IH in Hrun as (evs' & last & -> & Hevs' & Hlast).
  exists ([EvQuestion prompt (inr m); message_log m] ++ evs
          ++ response_logs out ++ evs'), last.
  split.
  { rewrite !add_events_app. f_equal. simpl. by rewrite <- !app_assoc. }
  split; [|done].
  repeat (apply Forall_cons; split; [done|]).
  apply Forall_app. split.
  { eapply Forall_impl; [exact Hevs|]. by intros [] ?. }
  repeat (apply Forall_cons; split; [done|]). done.
Qed.

Lemma chatLoop_unfold rt fuel s :
  chatLoop rt fuel s =
  match while_true fuel (chatLoop_iteration rt)
          (add_events s (EvCreateInterface :: started_logs)) with
  | None => None
  | Some (r, s') => Some (r, add_events s' [EvRlClose])
  end.
Proof.
  unfold chatLoop, bindD, liftD, try_finallyD, emit, bind, console_log; simpl.
  unfold add_events, started_logs; simpl. rewrite <- !app_assoc. simpl.
  by destruct (while_true _ _ _) as [[r s']|].
Qed.

Lemma chatLoop_shape rt fuel s r s' :
  chatLoop rt fuel s = Some (r, s') ->
  exists evs,
    s' = add_events s (EvCreateInterface :: evs ++ [EvRlClose])
    /\ Forall (fun ev => is_session_event ev = true) evs.
Proof.
  rewrite chatLoop_unfold.
  destruct (while_true _ _ _) as [[r0 s0]|] eqn:Hloop; [|done].
  intros [= <- <-].
  apply while_true_ends in Hloop as (evs & last & -> & Hevs & Hlast).
  rewrite !add_events_app.
  exists (started_logs ++ evs ++ [last]). split.
  { simpl. by rewrite <- !app_assoc. }
  apply Forall_app. split; [by repeat constructor|].
  apply Forall_app. split; [done|].
  constructor; [|done].
  destruct r0 as [e|u]; [by subst|]. by destruct Hlast as (m & -> & _).
Qed.

(** X7.  A session that ends, however it ends, created the line reader
    first and closed it last, exactly once; in between it only prompted
    and resolved queries, and it left the tool catalog and the transport
    of the client as they were. *)
Theorem chatLoop_closes_interface rt fuel s r s' :
  chatLoop rt fuel s = Some (r, s') ->
  (exists evs,
     events_since s s' = EvCreateInterface :: evs ++ [EvRlClose]
     /\ Forall (fun ev => is_session_event ev = true) evs)
  /\ this_tools s' = this_tools s
  /\ this_transport s' = this_transport s.
Proof.
  intros Hrun. apply chatLoop_shape in Hrun as (evs & -> & Hevs).
  split; [|done]. exists evs. by rewrite events_since_add.
Qed.

Lemma chatLoop_closes_interface_witness :
  exists evs,
    events_since initial
      (add_events initial
         (EvCreateInterface :: started_logs
          ++ [EvQuestion prompt (inr "QUIT"); EvRlClose]))
    = EvCreateInterface :: evs ++ [EvRlClose]
    /\ Forall (fun ev => is_session_event ev = true) evs.
Proof.
  refine (proj1 (chatLoop_closes_interface host_quit 1 initial (inr tt) _ _)).
  vm_compute. reflexivity.
Defined.

(** X8.  A session ends normally only after an answer that is [quit] up to
    letter case, and it fails only with the exception of a rejected
    prompt: a failing resolution never ends the session. *)
Theorem chatLoop_ends_on_quit_or_rejection rt fuel s r s' :
  chatLoop rt fuel s = Some (r, s') ->
  exists evs,
    match r with
    | inr _ =>
        exists m, events_since s s' = evs ++ [EvQuestion prompt (inr m); EvRlClose]
                  /\ toLowerCase m = "quit"
    | inl e => events_since s s' = evs ++ [EvQuestion prompt (inl e); EvRlClose]
    end.
Proof.
  rewrite chatLoop_unfold.
  destruct (while_true _ _ _) as [[r0 s0]|] eqn:Hloop; [|done].
  intros [= <- <-].
  apply while_true_ends in Hloop as (evs & last & -> & _ & Hlast).
  rewrite !add_events_app, events_since_add.
  exists ((EvCreateInterface :: started_logs) ++ evs).
  destruct r0 as [e|u].
  - subst last. by rewrite <- !app_assoc.
  - destruct Hlast as (m & -> & Hm). exists m. split; [|done].
    by rewrite <- !app_assoc.
Qed.

Lemma chatLoop_ends_on_quit_or_rejection_witness :
  exists evs,
    events_since initial
      (add_events initial
         (EvCreateInterface :: started_logs
          ++ [EvQuestion prompt (inl exhausted); EvRlClose]))
    = evs ++ [EvQuestion prompt (inl exhausted); EvRlClose].
Proof.
  refine (chatLoop_ends_on_quit_or_rejection host_closed_input 1 initial
            (inl exhausted) _ _).
  vm_compute. reflexivity.
Defined.

(* ===================================================================== *)
(** ** More on the connection step                                        *)
(* ===================================================================== *)

Lemma events_since_trace s s' evs :
  trace s' = trace s ++ evs -> events_since s s' = evs.
Proof. unfold events_since. intros ->. by rewrite drop_app_length. Qed.

(** The connection step only creates the transport, connects, discovers
    and writes to the console. *)
Lemma connectToServer_events rt path s :
  exists evs,
    trace (snd (connectToServer rt path s)) = trace s ++ evs
    /\ Forall (fun ev => is_connection_event ev = true) evs.
Proof.
  rewrite connectToServer_unfold.
  destruct (_ && _).
  { eexists. split; [reflexivity|]. by repeat constructor. }
  cbv zeta.
  destruct (mcp_connect rt _ _) as [e|u];
    [|destruct (mcp_listTools rt _) as [e|discovered]];
    (eexists; split; [reflexivity|]; by repeat constructor).
Qed.



(** X10.  The environment given to the tool process: every variable of the
    client's environment, unchanged, and the key [ANTHROPIC_MODEL] in any
    case, bound to the client's value of it or to [undefined]. *)
Theorem transport_env_spec rt (k : string) :
  (k <> "ANTHROPIC_MODEL" ->
   transport_env rt !! k = Some <$> (process_env rt !! k))
  /\ transport_env rt !! "ANTHROPIC_MODEL"
     = Some (process_env rt !! "ANTHROPIC_MODEL").
Proof.
  unfold transport_env, ANTHROPIC_MODEL. split.
  - intros Hk. rewrite lookup_insert_ne by done. by rewrite lookup_fmap.
  - by rewrite lookup_insert_eq.
Qed.



(* ===================================================================== *)
(** ** More on the entry point                                            *)
(* ===================================================================== *)

Lemma main_unfold rt fuel s :
  main rt fuel s =
  if Nat.ltb (List.length (process_argv rt)) 3
  then Some (inr (Returned tt), add_events s [usage_log])
  else
    match connectToServer rt (nth 2 (process_argv rt) "") s with
    | (inl e, s1) => Some (cleanup_and_exit rt s1)
    | (inr _, s1) =>
        match chatLoop rt fuel s1 with
        | None => None
        | Some (r, s2) => Some (cleanup_and_exit rt s2)
        end
    end.
Proof.
  unfold main. destruct (Nat.ltb _ 3); [done|].
  unfold try_finallyP, bindP, liftP, bindD, liftD, cleanup_and_exit, cleanup,
    process_exit, call, add_events.
  destruct (connectToServer rt _ s) as [[e|u] s1].
  - destruct (mcp_close rt (trace s1)) as [e'|u']; simpl; [done|].
    by rewrite <- app_assoc.
  - destruct (chatLoop rt fuel s1) as [[[e|u'] s2]|]; [| |done].
    + destruct (mcp_close rt (trace s2)) as [e'|u'']; simpl; [done|].
      by rewrite <- app_assoc.
    + destruct (mcp_close rt (trace s2)) as [e'|u'']; simpl; [done|].
      by rewrite <- app_assoc.
Qed.

(** X12.  Without a script path on the command line, [main] prints the usage
    line and returns: it connects to nothing, closes nothing and does
    not call [process.exit]. *)
Theorem main_usage rt fuel s :
  List.length (process_argv rt) < 3 ->
  main rt fuel s = Some (inr (Returned tt), add_events s [usage_log]).
Proof.
  intros Hlen. rewrite main_unfold.
  by apply Nat.ltb_lt in Hlen as ->.
Qed.

Lemma main_usage_witness :
  main host_no_argument 3 initial
  = Some (inr (Returned tt), add_events initial [usage_log]).
Proof. apply main_usage. vm_compute. lia. Defined.

(** X13.  When the connection step fails, the session loop is never started:
    [main] goes straight to closing the channel and, when that returns,
    calls [process.exit(0)], which ends the process: the process exits
    with code 0 although connecting failed, and the failure is not
    raised by [main] (the connection step has logged it). *)
Theorem main_connection_failure rt fuel s e s1 u :
  3 <= List.length (process_argv rt) ->
  connectToServer rt (nth 2 (process_argv rt) "") s = (inl e, s1) ->
  mcp_close rt (trace s1) = inr u ->
  main rt fuel s
  = Some (inr (Exited 0), add_events s1 [EvMcpClose (inr u); EvExit 0]).
Proof.
  intros Hlen Hconn Hclose. rewrite main_unfold, Hconn.
  apply Nat.ltb_ge in Hlen as ->.
  unfold cleanup_and_exit. by rewrite Hclose.
Qed.

Lemma main_connection_failure_witness :
  main host_ruby 3 initial
  = Some (inr (Exited 0),
          add_events initial [connect_error_log extension_error;
                              EvMcpClose (inr tt); EvExit 0]).
Proof.
  refine (main_connection_failure host_ruby 3 initial extension_error
            (add_events initial [connect_error_log extension_error]) tt _ _ _).
  - vm_compute. lia.
  - reflexivity.
  - reflexivity.
Defined.

(** X14.  Whenever [main] was given a script path and returns, it has closed
    the channel exactly once, after everything else; when closing
    succeeds it then calls [process.exit(0)], the last event, and when
    closing fails [process.exit] is not called and the exception of
    [close] is what [main] raises, whatever happened before. *)
Theorem main_tears_down rt fuel s r s' :
  3 <= List.length (process_argv rt) ->
  main rt fuel s = Some (r, s') ->
  exists evs c,
    events_since s s'
    = evs ++ EvMcpClose c :: match c with inr _ => [EvExit 0] | inl _ => [] end
    /\ Forall (fun ev => is_teardown ev = false) evs
    /\ match c with inl e => r = inl e | inr _ => True end.
Proof.
  intros Hlen. rewrite main_unfold.
  apply Nat.ltb_ge in Hlen as ->.
  destruct (connectToServer_events rt (nth 2 (process_argv rt) "") s)
    as (cevs & Hct & Hcevs).
  assert (Hcevs' : Forall (fun ev => is_teardown ev = false) cevs).
  { eapply Forall_impl; [exact Hcevs|]. by intros [] ?. }
  assert (Hfin : forall s1 evs,
             trace s1 = trace s ++ evs ->
             Forall (fun ev => is_teardown ev = false) evs ->
             cleanup_and_exit rt s1 = (r, s') ->
             exists evs c,
               events_since s s'
               = evs ++ EvMcpClose c :: match c with inr _ => [EvExit 0] | inl _ => [] end
               /\ Forall (fun ev => is_teardown ev = false) evs
               /\ match c with inl e => r = inl e | inr _ => True end).
  { intros s1 evs Ht Hevs. unfold cleanup_and_exit.
    destruct (mcp_close rt (trace s1)) as [e'|u'] eqn:Hclose; intros [= <- <-].
    - exists evs, (inl e'). split; [|done].
      apply events_since_trace. simpl. by rewrite Ht, <- app_assoc.
    - exists evs, (inr u'). split; [|done].
      apply events_since_trace. simpl. by rewrite Ht, <- app_assoc. }
  destruct (connectToServer rt _ s) as [[e|u] s1]; simpl in Hct.
  - intros [= Hc]. by eapply Hfin.
  - destruct (chatLoop rt fuel s1) as [[r2 s2]|] eqn:Hchat; [|done].
    apply chatLoop_shape in Hchat as (evs & -> & Hsess).
    intros [= Hc]. eapply Hfin; [| |exact Hc].
    + simpl. rewrite Hct, <- app_assoc. reflexivity.
    + apply Forall_app. split; [done|].
      constructor; [done|]. apply Forall_app. split; [|by repeat constructor].
      eapply Forall_impl; [exact Hsess|]. by intros [] ?.
Qed.

Lemma main_tears_down_witness :
  match main host_with_key 3 initial with
  | Some (r, s') =>
      exists evs c,
        events_since initial s'
        = evs ++ EvMcpClose c :: match c with inr _ => [EvExit 0] | inl _ => [] end
        /\ Forall (fun ev => is_teardown ev = false) evs
        /\ match c with inl e => r = inl e | inr _ => True end
  | None => False
  end.
Proof.
  destruct (main host_with_key 3 initial) as [[r s']|] eqn:Hrun.
  - apply (main_tears_down host_with_key 3 initial r s'); [vm_compute; lia | exact Hrun].
  - vm_compute in Hrun. discriminate.
Defined.

(* ===================================================================== *)
(** ** Which inputs end the session, which paths are accepted             *)
(* ===================================================================== *)





Lemma append_cons c a b : String c a +:+ b = String c (a +:+ b).
Proof. reflexivity. Qed.

Lemma length_append a b :
  String.length (a +:+ b) = String.length a + String.length b.
Proof.
  induction a as [|c a IH]; [done|].
  rewrite append_cons. simpl. by rewrite IH.
Qed.

Lemma substring_all s : substring 0 (String.length s) s = s.
Proof. induction s as [|c s IH]; [done|]. simpl. by rewrite IH. Qed.

Lemma substring_suffix pre suf :
  substring (String.length pre) (String.length suf) (pre +:+ suf) = suf.
Proof.
  induction pre as [|c pre IH]; [apply substring_all|].
  rewrite append_cons. simpl. exact IH.
Qed.

Lemma substring_split s : forall n,
  n <= String.length s ->
  s = substring 0 n s +:+ substring n (String.length s - n) s.
Proof.
  induction s as [|c s IH]; intros n Hn.
  - simpl in Hn. assert (n = 0) as -> by lia. done.
  - destruct n as [|n].
    + simpl. by rewrite substring_all.
    + simpl in Hn |- *. rewrite append_cons. f_equal. apply IH. lia.
Qed.

(** [endsWith] holds exactly of the strings that are some prefix
    followed by the suffix. *)
Lemma endsWith_spec s suffix :
  endsWith s suffix = true <-> exists pre, s = pre +:+ suffix.
Proof.
  unfold endsWith. split.
  - intros H. apply andb_prop in H as [Hle Heq].
    apply Nat.leb_le in Hle. apply String.eqb_eq in Heq.
    exists (substring 0 (String.length s - String.length suffix) s).
    pose proof (substring_split s (String.length s - String.length suffix)) as H.
    replace (String.length s - (String.length s - String.length suffix))
      with (String.length suffix) in H by lia.
    rewrite Heq in H. apply H. lia.
  - intros [pre ->]. rewrite length_append.
    apply andb_true_intro. split; [apply Nat.leb_le; lia|].
    replace (String.length pre + String.length suffix - String.length suffix)
      with (String.length pre) by lia.
    rewrite substring_suffix. apply String.eqb_refl.
Qed.

(** X16.  The connection step creates a transport exactly for the paths that
    are some text followed by [.js] or by [.py] (the bare names [.js]
    and [.py] included; the comparison is case sensitive); for every
    other path it creates none. *)
Theorem connectToServer_accepted_paths rt path s :
  In (EvNewTransport (transport_for rt path))
    (events_since s (snd (connectToServer rt path s)))
  <-> exists base, path = base +:+ ".js" \/ path = base +:+ ".py".
Proof.
  assert (Hext : negb (endsWith path ".js") && negb (endsWith path ".py") = false
                 <-> exists base, path = base +:+ ".js" \/ path = base +:+ ".py").
  { split.
    - intros H. apply andb_false_iff in H as [H|H]; apply negb_false_iff in H;
        apply endsWith_spec in H as [base ->]; exists base; tauto.
    - intros [base [->| ->]]; apply andb_false_iff; [left|right];
        apply negb_false_iff, endsWith_spec; by exists base. }
  rewrite <- Hext. rewrite connectToServer_unfold.
  destruct (negb (endsWith path ".js") && negb (endsWith path ".py")).
  - cbn [snd]. rewrite events_since_add. split; [|done].
    intros [H|[]]. discriminate.
  - split; [done|]. intros _. cbv zeta.
    destruct (mcp_connect rt _ _) as [e|u];
      [|destruct (mcp_listTools rt _) as [e|discovered]];
      (erewrite events_since_trace by reflexivity); by left.
Qed.

Lemma connectToServer_accepted_paths_witness :
  In (EvNewTransport (transport_for host_one_tool "tools/server.py"))
    (events_since initial (snd (connectToServer host_one_tool "tools/server.py" initial))).
Proof.
  apply connectToServer_accepted_paths. exists "tools/server". by right.
Defined.

(** X17.  The phases of a run of [main] that connected and returned: first
    the connection step (transport, handshake, discovery), once; then
    the session, between the creation and the closing of the line
    reader, which holds every prompt, model call and tool invocation;
    then the teardown (closing the channel, exit). *)
Theorem main_phases rt fuel s r s' :
  3 <= List.length (process_argv rt) ->
  fst (connectToServer rt (nth 2 (process_argv rt) "") s) = inr tt ->
  main rt fuel s = Some (r, s') ->
  exists cevs sevs tevs,
    events_since s s' = cevs ++ [EvCreateInterface] ++ sevs ++ [EvRlClose] ++ tevs
    /\ Forall (fun ev => is_connection_event ev = true) cevs
    /\ Forall (fun ev => is_session_event ev = true) sevs
    /\ Forall (fun ev => is_teardown ev = true) tevs
    /\ tevs <> [].
Proof.
  intros Hlen Hconn. rewrite main_unfold.
  apply Nat.ltb_ge in Hlen as ->.
  destruct (connectToServer_events rt (nth 2 (process_argv rt) "") s)
    as (cevs & Hct & Hcevs).
  destruct (connectToServer rt _ s) as [[e|u] s1]; simpl in Hct, Hconn; [done|].
  destruct (chatLoop rt fuel s1) as [[r2 s2]|] eqn:Hchat; [|done].
  apply chatLoop_shape in Hchat as (sevs & -> & Hsevs).
  unfold cleanup_and_exit. simpl trace. rewrite Hct.
  destruct (mcp_close rt _) as [e'|u'] eqn:Hclose; intros [= <- <-].
  - exists cevs, sevs, [EvMcpClose (inl e')].
    split; [|by repeat split; try done; repeat constructor].
    apply events_since_trace. simpl. rewrite Hct, <- !app_assoc. simpl.
    by rewrite <- !app_assoc.
  - exists cevs, sevs, [EvMcpClose (inr u'); EvExit 0].
    split; [|by repeat split; try done; repeat constructor].
    apply events_since_trace. simpl. rewrite Hct, <- !app_assoc. simpl.
    by rewrite <- !app_assoc.
Qed.

Lemma main_phases_witness :
  match main host_with_key 3 initial with
  | Some (r, s') =>
      exists cevs sevs tevs,
        events_since initial s'
        = cevs ++ [EvCreateInterface] ++ sevs ++ [EvRlClose] ++ tevs
        /\ Forall (fun ev => is_connection_event ev = true) cevs
        /\ Forall (fun ev => is_session_event ev = true) sevs
        /\ Forall (fun ev => is_teardown ev = true) tevs
        /\ tevs <> []
  | None => False
  end.
Proof.
  destruct (main host_with_key 3 initial) as [[r s']|] eqn:Hrun.
  - apply (main_phases host_with_key 3 initial r s');
      [vm_compute; lia | reflexivity | exact Hrun].
  - vm_compute in Hrun. discriminate.
Defined.

(* ===================================================================== *)
(** ** A session with a given operator                                    *)
(* ===================================================================== *)

Lemma questions_app a b : questions (a ++ b) = questions a ++ questions b.
Proof. unfold questions. apply omap_app. Qed.

Lemma questions_resolution evs :
  Forall (fun ev => is_resolution_event ev = true) evs -> questions evs = [].
Proof.
  induction 1 as [|ev evs Hev _ IH]; [done|].
  destruct ev; try done; simpl; exact IH.
Qed.

Lemma model_calls_logs_only evs :
  Forall (fun ev => is_call ev = false) evs -> model_calls evs = [].
Proof.
  induction 1 as [|ev evs Hev _ IH]; [done|].
  destruct ev; try done; simpl; exact IH.
Qed.

Lemma nth_scripted (pre : list string) x rest k :
  k = List.length pre ->
  nth k (List.map inr (pre ++ x :: rest)) (inl exhausted)
  = (inr x : Thrown + string).
Proof.
  intros ->. rewrite List.map_app, List.app_nth2; rewrite List.length_map; [|lia].
  by rewrite Nat.sub_diag.
Qed.

(** One resolution, seen from the session: it returns, it prompts
    nobody, and it starts with the one round-1 call for its query. *)
Lemma processQuery_in_session rt query s :
  exists out evs,
    processQuery rt query s = (inr out, add_events s evs)
    /\ questions evs = []
    /\ resolved_queries evs = [JStr query].
Proof.
  destruct (processQuery_events rt query s) as (out & evs & Hrun & Hevs).
  exists out, evs. split; [done|]. split; [by apply questions_resolution|].
  destruct (model_calls_of_resolution rt query s) as (followUps & Hm & Hf).
  rewrite Hrun in Hm. simpl in Hm. rewrite events_since_add in Hm.
  unfold resolved_queries. rewrite Hm. simpl. f_equal.
  clear Hm. induction Hf as [|p l [msgs ->] _ IH]; [done|].
  simpl. exact IH.
Qed.

Lemma while_true_scripted rt qs : forall pre q rest fuel s,
  List.length (questions (trace s)) = List.length pre ->
  Forall (fun l => toLowerCase l <> "quit") qs ->
  toLowerCase q = "quit" ->
  List.length qs < fuel ->
  exists evs,
    while_true fuel
      (chatLoop_iteration (with_operator rt (pre ++ qs ++ q :: rest))) s
    = Some (inr tt, add_events s evs)
    /\ resolved_queries evs = List.map JStr qs
    /\ List.length (questions evs) = S (List.length qs).
Proof.
  induction qs as [|l qs IH]; intros pre q rest fuel s Hk Hqs Hq Hfuel.
  - destruct fuel as [|fuel]; [simpl in Hfuel; lia|].
    exists [EvQuestion prompt (inr q)]. simpl.
    rewrite chatLoop_iteration_unfold. simpl rl_question. unfold scripted_operator.
    rewrite nth_scripted by done. cbv zeta.
    apply String.eqb_eq in Hq. rewrite Hq. done.
  - destruct fuel as [|fuel]; [simpl in Hfuel; lia|].
    apply Forall_cons in Hqs as [Hl Hqs]. apply String.eqb_neq in Hl.
    simpl while_true.
    rewrite chatLoop_iteration_unfold. simpl rl_question. unfold scripted_operator.
    rewrite nth_scripted by done. cbv zeta. rewrite Hl.
    set (rt' := with_operator rt (pre ++ l :: qs ++ q :: rest)).
    destruct (processQuery_in_session rt' l
                (add_events (add_events s [EvQuestion prompt (inr l)]) [message_log l]))
      as (out & evs & Hrun & Hquest & Hres).
    rewrite Hrun. rewrite !add_events_app.
    set (step := [EvQuestion prompt (inr l)] ++ [message_log l] ++ evs ++ response_logs out).
    destruct (IH (pre ++ [l]) q rest fuel (add_events s step)) as (evs' & Hloop & Hres' & Hq').
    { rewrite trace_add_events, questions_app, !List.length_app, Hk. unfold step.
      rewrite !questions_app, Hquest. simpl. lia. }
    { done. }
    { done. }
    { simpl in Hfuel. lia. }
    exists (step ++ evs').
    unfold rt'. replace (pre ++ l :: qs ++ q :: rest)
      with ((pre ++ [l]) ++ qs ++ q :: rest) by (by rewrite <- app_assoc).
    rewrite Hloop, add_events_app. split; [done|].
    unfold resolved_queries in *. rewrite model_calls_app, omap_app, Hres'.
    rewrite questions_app, List.length_app, Hq'. unfold step.
    rewrite !model_calls_app, !omap_app, Hres, !questions_app, Hquest.
    simpl. done.
Qed.

(** X18.  With an operator who types the lines [qs], none of them [quit] in
    any letter case, and then [quit], the session ends normally (given
    fuel for one iteration per line): it prompted once per line, and it
    started one resolution per line of [qs], for that very line, in the
    order typed. *)
Theorem chatLoop_scripted_operator rt qs q rest fuel s :
  questions (trace s) = [] ->
  Forall (fun l => toLowerCase l <> "quit") qs ->
  toLowerCase q = "quit" ->
  List.length qs < fuel ->
  exists s',
    chatLoop (with_operator rt (qs ++ q :: rest)) fuel s = Some (inr tt, s')
    /\ resolved_queries (events_since s s') = List.map JStr qs
    /\ List.length (questions (events_since s s')) = S (List.length qs).
Proof.
  intros Hs Hqs Hq Hfuel. rewrite chatLoop_unfold.
  destruct (while_true_scripted rt qs [] q rest fuel
              (add_events s (EvCreateInterface :: started_logs)))
    as (evs & Hloop & Hres & Hquest); try done.
  { rewrite trace_add_events, questions_app, Hs. done. }
  simpl app in Hloop. rewrite Hloop.
  eexists. split; [reflexivity|].
  rewrite !add_events_app, events_since_add.
  unfold resolved_queries in *.
  rewrite !model_calls_app, !omap_app, !questions_app, !List.length_app, Hres, Hquest.
  simpl. rewrite app_nil_r. split; [done|lia].
Qed.

Lemma chatLoop_scripted_operator_witness :
  exists s',
    chatLoop (with_operator host_text (["What is 2+2?"] ++ "Quit" :: [])) 2 initial
    = Some (inr tt, s')
    /\ resolved_queries (events_since initial s') = [JStr "What is 2+2?"]
    /\ List.length (questions (events_since initial s')) = 2.
Proof.
  apply (chatLoop_scripted_operator host_text ["What is 2+2?"] "Quit" [] 2 initial).
  - reflexivity.
  - constructor; [discriminate|constructor].
  - reflexivity.
  - simpl. lia.
Defined.
